(** * ApplicationSnapshot: the lifecycle helpers of
    [apis/appstudio.redhat.com/v1alpha1/applicationsnapshot_types.go]

    The Go methods mutate their receiver and read the wall clock.  Here a
    method takes the receiver and returns the updated receiver inside a small
    state monad whose state is the clock, so that every [time.Now()] of the
    source is one reading of that clock. *)

From stdpp Require Import base option list strings.
From Stdlib Require Import ZArith Lia.

(** ** The wall clock *)

(** An instant, counted from Go's zero [time.Time]; [0] is the zero instant. *)
Abbreviation Time := Z.

(** The clock: the value of each successive reading, and how many readings
    have been taken so far. *)
Record Clock := mkClock { wall : nat → Time; ticks : nat }.

Definition M (A : Type) : Type := Clock → A * Clock.

#[global] Instance M_ret : MRet M := λ A x k, (x, k).
#[global] Instance M_bind : MBind M := λ A B f m k, let (x, k') := m k in f x k'.

(** [time.Now()]: the current reading; the clock moves on. *)
Definition time_Now : M Time :=
  λ k, (wall k (ticks k), mkClock (wall k) (S (ticks k))).

(** The receiver after a method has run from clock [k]. *)
Definition result {A} (m : M A) (k : Clock) : A := (m k).1.

(** Unfolds the monad's plumbing in proofs. *)
Ltac run_M := unfold mbind, mret, M_bind, M_ret, result, time_Now in *; simpl in *.

(** ** [k8s.io/apimachinery/pkg/apis/meta/v1] *)
Module metav1.

(** Modelled from the spec: [metav1.ConditionStatus] is declared outside this
    repository's sources; the spec gives its values as True, False and
    Unknown. *)
Inductive ConditionStatus := ConditionTrue | ConditionFalse | ConditionUnknown.

#[global] Instance ConditionStatus_eq_dec : EqDecision ConditionStatus.
Proof. solve_decision. Defined.

(** Modelled from the spec: [metav1.Condition] is declared outside this
    repository's sources; the spec gives a condition record as
    [{type, status, reason, message, lastTransitionTime}]. *)
Record Condition := mkCondition {
  Type_ : string;
  Status : ConditionStatus;
  LastTransitionTime : Time;
  Reason : string;
  Message : string
}.

#[global] Instance Condition_eq_dec : EqDecision Condition.
Proof. solve_decision. Defined.

(** Modelled from the spec: [time.Time.IsZero], true of the zero instant
    only. *)
Definition Time_IsZero (t : Time) : bool := bool_decide (t = 0%Z).

(** Modelled from the spec: the [IsZero] method of a [metav1.Time] pointer,
    which also holds of a nil pointer. *)
Definition IsZero (t : option Time) : bool :=
  match t with
  | None => true
  | Some t => Time_IsZero t
  end.

(** Modelled from the spec: [metav1.TypeMeta] and [metav1.ObjectMeta] are
    declared outside this repository's sources; no method of this file reads
    or writes them. *)
Record TypeMeta := mkTypeMeta { Kind : string; APIVersion : string }.
Record ObjectMeta := mkObjectMeta { Name : string; Namespace : string }.

End metav1.

(** ** [k8s.io/apimachinery/pkg/api/meta] *)
Module meta.
Import metav1.

(** Modelled from the spec: [meta.FindStatusCondition] is defined outside
    this repository's sources.  It scans the conditions in order and returns
    a pointer to the first one of the given type, or nil.  The pointer
    [&conditions[i]] is the index [i] together with the record it points
    to. *)
Definition FindStatusCondition (conditions : list Condition) (conditionType : string)
    : option (nat * Condition) :=
  list_find (λ c, Type_ c = conditionType) conditions.

(** Modelled from the spec: [meta.IsStatusConditionPresentAndEqual], the scan
    behind [meta.IsStatusConditionTrue]: the first condition of the given
    type decides. *)
Fixpoint IsStatusConditionPresentAndEqual (conditions : list Condition)
    (conditionType : string) (status : ConditionStatus) : bool :=
  match conditions with
  | [] => false
  | condition :: rest =>
      if bool_decide (Type_ condition = conditionType)
      then bool_decide (Status condition = status)
      else IsStatusConditionPresentAndEqual rest conditionType status
  end.

(** Modelled from the spec: [meta.IsStatusConditionTrue] is defined outside
    this repository's sources: the condition is present with status True. *)
Definition IsStatusConditionTrue (conditions : list Condition) (conditionType : string) : bool :=
  IsStatusConditionPresentAndEqual conditions conditionType ConditionTrue.

(** Modelled from the spec: [meta.SetStatusCondition] is defined outside this
    repository's sources.  If a record of the new condition's type exists it
    is updated in place: status, reason and message are overwritten and the
    transition time is refreshed only when the status changes.  Otherwise the
    new condition is appended.  A transition time the caller supplied is
    kept; a zero one is replaced by the clock's reading. *)
Definition SetStatusCondition (conditions : list Condition) (newCondition : Condition)
    : M (list Condition) :=
  match FindStatusCondition conditions (Type_ newCondition) with
  | None =>
      t ← (if Time_IsZero (LastTransitionTime newCondition)
           then time_Now
           else mret (LastTransitionTime newCondition));
      mret (conditions ++
              [mkCondition (Type_ newCondition) (Status newCondition) t
                           (Reason newCondition) (Message newCondition)])
  | Some (i, existingCondition) =>
      transitioned ←
        (if bool_decide (Status existingCondition ≠ Status newCondition)
         then
           t ← (if negb (Time_IsZero (LastTransitionTime newCondition))
                then mret (LastTransitionTime newCondition)
                else time_Now);
           mret (Status newCondition, t)
         else mret (Status existingCondition, LastTransitionTime existingCondition));
      mret (<[i := mkCondition (Type_ existingCondition) transitioned.1 transitioned.2
                              (Reason newCondition) (Message newCondition)]> conditions)
  end.

End meta.

(** ** [v1alpha1]: the types of the source file *)

Record ApplicationSnapshotComponent := mkApplicationSnapshotComponent {
  Name : string;
  ContainerImage : string
}.

(** [UnstableFields] is a pointer to raw JSON. *)
Record SnapshotArtifacts := mkSnapshotArtifacts {
  UnstableFields : option string
}.

Record ApplicationSnapshotSpec := mkApplicationSnapshotSpec {
  Application : string;
  DisplayName : string;
  DisplayDescription : string;
  Type_ : string;
  Components : list ApplicationSnapshotComponent;
  Artifacts : SnapshotArtifacts
}.

Definition ApplicationSnapshotReason : Type := string.

Definition applicationSnapshotConditionType : string := "Succeeded".
Definition ApplicationSnapshotReasonInitialized : ApplicationSnapshotReason := "Initialized".
Definition ApplicationSnapshotReasonValidationError : ApplicationSnapshotReason := "Error".
Definition ApplicationSnapshotReasonTestsFailed : ApplicationSnapshotReason := "TestsFailed".
Definition ApplicationSnapshotReasonTestsRunning : ApplicationSnapshotReason := "TestsRunning".
Definition ApplicationSnapshotReasonSucceeded : ApplicationSnapshotReason := "Succeeded".

(** [func (asr ApplicationSnapshotReason) String() string] *)
Definition ApplicationSnapshotReason_String (asr : ApplicationSnapshotReason) : string := asr.

Record ApplicationSnapshotStatus := mkApplicationSnapshotStatus {
  StartTime : option Time;
  CompletionTime : option Time;
  Conditions : list metav1.Condition;
  ReleasePipelineRun : string
}.

Record ApplicationSnapshot := mkApplicationSnapshot {
  TypeMeta : metav1.TypeMeta;
  ObjectMeta : metav1.ObjectMeta;
  Spec : ApplicationSnapshotSpec;
  Status : ApplicationSnapshotStatus
}.

(** Assignments to the three status fields the methods write. *)
Definition set_StartTime (t : option Time) (a : ApplicationSnapshot) : ApplicationSnapshot :=
  mkApplicationSnapshot (TypeMeta a) (ObjectMeta a) (Spec a)
    (mkApplicationSnapshotStatus t (CompletionTime (Status a)) (Conditions (Status a))
       (ReleasePipelineRun (Status a))).

Definition set_CompletionTime (t : option Time) (a : ApplicationSnapshot) : ApplicationSnapshot :=
  mkApplicationSnapshot (TypeMeta a) (ObjectMeta a) (Spec a)
    (mkApplicationSnapshotStatus (StartTime (Status a)) t (Conditions (Status a))
       (ReleasePipelineRun (Status a))).

Definition set_Conditions (cs : list metav1.Condition) (a : ApplicationSnapshot) : ApplicationSnapshot :=
  mkApplicationSnapshot (TypeMeta a) (ObjectMeta a) (Spec a)
    (mkApplicationSnapshotStatus (StartTime (Status a)) (CompletionTime (Status a)) cs
       (ReleasePipelineRun (Status a))).

(** ** [v1alpha1]: the methods of the source file *)

(** [HasStarted]: the start time is set and is not the zero instant. *)
Definition HasStarted (a : ApplicationSnapshot) : bool :=
  bool_decide (StartTime (Status a) ≠ None) && negb (metav1.IsZero (StartTime (Status a))).

(** [HasSucceeded]: the negation of [meta.IsStatusConditionTrue]. *)
Definition HasSucceeded (a : ApplicationSnapshot) : bool :=
  negb (meta.IsStatusConditionTrue (Conditions (Status a)) applicationSnapshotConditionType).

(** [IsDone]: the Succeeded condition is found and is not Unknown. *)
Definition IsDone (a : ApplicationSnapshot) : bool :=
  match meta.FindStatusCondition (Conditions (Status a)) applicationSnapshotConditionType with
  | Some (_, condition) => bool_decide (metav1.Status condition ≠ metav1.ConditionUnknown)
  | None => false
  end.

(** [setStatusConditionWithMessage]: the literal leaves the transition time at
    its zero value. *)
Definition setStatusConditionWithMessage (status : metav1.ConditionStatus)
    (reason : ApplicationSnapshotReason) (message : string) (a : ApplicationSnapshot)
    : M ApplicationSnapshot :=
  cs ← meta.SetStatusCondition (Conditions (Status a))
         (metav1.mkCondition applicationSnapshotConditionType status 0%Z
            (ApplicationSnapshotReason_String reason) message);
  mret (set_Conditions cs a).

Definition setStatusCondition (status : metav1.ConditionStatus)
    (reason : ApplicationSnapshotReason) (a : ApplicationSnapshot) : M ApplicationSnapshot :=
  setStatusConditionWithMessage status reason "" a.

Definition MarkFailed (reason : ApplicationSnapshotReason) (message : string)
    (a : ApplicationSnapshot) : M ApplicationSnapshot :=
  if IsDone a && bool_decide (CompletionTime (Status a) ≠ None) then mret a
  else
    now ← time_Now;
    setStatusConditionWithMessage metav1.ConditionFalse reason message
      (set_CompletionTime (Some now) a).

Definition MarkInvalid (reason : ApplicationSnapshotReason) (message : string)
    (a : ApplicationSnapshot) : M ApplicationSnapshot :=
  if IsDone a then mret a
  else setStatusConditionWithMessage metav1.ConditionFalse reason message a.

Definition MarkRunning (a : ApplicationSnapshot) : M ApplicationSnapshot :=
  if HasStarted a && bool_decide (StartTime (Status a) ≠ None) then mret a
  else
    now ← time_Now;
    setStatusCondition metav1.ConditionUnknown ApplicationSnapshotReasonTestsRunning
      (set_StartTime (Some now) a).

Definition MarkSucceeded (a : ApplicationSnapshot) : M ApplicationSnapshot :=
  if IsDone a && bool_decide (CompletionTime (Status a) ≠ None) then mret a
  else
    now ← time_Now;
    setStatusCondition metav1.ConditionTrue ApplicationSnapshotReasonSucceeded
      (set_CompletionTime (Some now) a).

(** ** Sequences of operations *)

(** The four mutating operations, as the steps of the lifecycle. *)
Inductive Op :=
  | OpMarkRunning
  | OpMarkFailed (reason : ApplicationSnapshotReason) (message : string)
  | OpMarkInvalid (reason : ApplicationSnapshotReason) (message : string)
  | OpMarkSucceeded.

#[global] Instance Op_eq_dec : EqDecision Op.
Proof. solve_decision. Defined.

Definition step (o : Op) (a : ApplicationSnapshot) : M ApplicationSnapshot :=
  match o with
  | OpMarkRunning => MarkRunning a
  | OpMarkFailed reason message => MarkFailed reason message a
  | OpMarkInvalid reason message => MarkInvalid reason message a
  | OpMarkSucceeded => MarkSucceeded a
  end.

Fixpoint run (os : list Op) (a : ApplicationSnapshot) : M ApplicationSnapshot :=
  match os with
  | [] => mret a
  | o :: os' => a' ← step o a; run os' a'
  end.

(** ** Notions the properties are stated with *)

(** The Succeeded condition of a snapshot: the record the scan finds. *)
Definition succeeded (a : ApplicationSnapshot) : option metav1.Condition :=
  snd <$> meta.FindStatusCondition (Conditions (Status a)) applicationSnapshotConditionType.

(** The data model's invariant: at most one condition record per type. *)
Definition one_per_type (conditions : list metav1.Condition) : Prop :=
  NoDup (metav1.Type_ <$> conditions).

(** A snapshot as it is created: no condition, no start or completion time. *)
Definition fresh (a : ApplicationSnapshot) : Prop :=
  Conditions (Status a) = [] ∧ StartTime (Status a) = None ∧ CompletionTime (Status a) = None.

(** The condition of a type is present with a status of a given kind: the
    first record of that type, the one the library's scans stop at, has it. *)
Definition present_with (conditions : list metav1.Condition) (conditionType : string)
    (P : metav1.ConditionStatus → Prop) : Prop :=
  ∃ before c after,
    conditions = before ++ c :: after ∧
    (∀ y, y ∈ before → metav1.Type_ y ≠ conditionType) ∧
    metav1.Type_ c = conditionType ∧ P (metav1.Status c).

(** The conditions contain a record of a type with a status of a given kind. *)
Definition contains_with (conditions : list metav1.Condition) (conditionType : string)
    (P : metav1.ConditionStatus → Prop) : Prop :=
  ∃ c, c ∈ conditions ∧ metav1.Type_ c = conditionType ∧ P (metav1.Status c).

(** Concrete values for the examples. *)
Definition clock0 : Clock := mkClock (λ n, 100 + Z.of_nat n)%Z 0.

Definition snapshot0 : ApplicationSnapshot :=
  mkApplicationSnapshot
    (metav1.mkTypeMeta "ApplicationSnapshot" "appstudio.redhat.com/v1alpha1")
    (metav1.mkObjectMeta "snapshot" "default")
    (mkApplicationSnapshotSpec "app" "" "" ""
       [mkApplicationSnapshotComponent "web" "quay.io/app/web:1"] (mkSnapshotArtifacts None))
    (mkApplicationSnapshotStatus None None [] "").

(** A snapshot that failed before it ever ran: what [MarkFailed "Error" "x"]
    makes of [snapshot0] on [clock0]. *)
Definition snapshot_failed : ApplicationSnapshot :=
  mkApplicationSnapshot (TypeMeta snapshot0) (ObjectMeta snapshot0) (Spec snapshot0)
    (mkApplicationSnapshotStatus None (Some 100%Z)
       [metav1.mkCondition "Succeeded" metav1.ConditionFalse 101 "Error" "x"] "").

(** The clock after the two readings [MarkFailed] took. *)
Definition clock2 : Clock := mkClock (wall clock0) 2.

(** A snapshot that ran and then succeeded. *)
Definition snapshot_succeeded : ApplicationSnapshot :=
  mkApplicationSnapshot (TypeMeta snapshot0) (ObjectMeta snapshot0) (Spec snapshot0)
    (mkApplicationSnapshotStatus (Some 100%Z) (Some 102%Z)
       [metav1.mkCondition "Succeeded" metav1.ConditionTrue 103 "Succeeded" ""] "").

(** Conditions that break the data model's invariant: two records of type
    Succeeded. *)
Definition snapshot_two_records : ApplicationSnapshot :=
  set_Conditions
    [metav1.mkCondition "Succeeded" metav1.ConditionUnknown 1 "TestsRunning" "";
     metav1.mkCondition "Succeeded" metav1.ConditionTrue 2 "Succeeded" ""]
    snapshot0.

(** A clock whose first reading is the zero instant. *)
Definition clock_from_zero : Clock := mkClock (λ n, Z.of_nat n) 0.

(** The status of the Succeeded condition, if there is one. *)
Definition succeeded_status (a : ApplicationSnapshot) : option metav1.ConditionStatus :=
  metav1.Status <$> succeeded a.

(** A snapshot that carries a condition of another type, as a controller
    sharing the status could have written it. *)
Definition snapshot_with_ready : ApplicationSnapshot :=
  set_Conditions [metav1.mkCondition "Ready" metav1.ConditionTrue 7 "Deployed" "ok"] snapshot0.

(** What holds of every snapshot the methods produce from a fresh one: at
    most one condition, of type Succeeded; status True comes with the reason
    Succeeded, an empty message and a completion time; status Unknown comes
    with the reason TestsRunning, an empty message and a start time. *)
Definition lifecycle_invariant (a : ApplicationSnapshot) : Prop :=
  match Conditions (Status a) with
  | [] => True
  | [c] =>
      metav1.Type_ c = applicationSnapshotConditionType ∧
      match metav1.Status c with
      | metav1.ConditionTrue =>
          CompletionTime (Status a) ≠ None ∧
          metav1.Reason c = ApplicationSnapshotReasonSucceeded ∧ metav1.Message c = ""
      | metav1.ConditionUnknown =>
          StartTime (Status a) ≠ None ∧
          metav1.Reason c = ApplicationSnapshotReasonTestsRunning ∧ metav1.Message c = ""
      | metav1.ConditionFalse => True
      end
  | _ => False
  end.

(** * Facts about the condition helpers *)

Section meta_facts.
Import metav1 meta.
Implicit Types (cs : list Condition) (c : Condition) (ty : string) (k : Clock).

(** What the scan's answer means: a pointer to the first record of the
    type. *)
Lemma FindStatusCondition_Some cs ty i c :
  FindStatusCondition cs ty = Some (i, c) ↔
  cs !! i = Some c ∧ Type_ c = ty ∧ ∀ j y, cs !! j = Some y → j < i → Type_ y ≠ ty.
Proof. unfold FindStatusCondition. by rewrite list_find_Some. Qed.

Lemma FindStatusCondition_None cs ty :
  FindStatusCondition cs ty = None ↔ ∀ c, c ∈ cs → Type_ c ≠ ty.
Proof.
  unfold FindStatusCondition. rewrite list_find_None, Forall_forall. done.
Qed.

(** The same, by the shape of the list. *)
Lemma FindStatusCondition_split cs ty c :
  (∃ i, FindStatusCondition cs ty = Some (i, c)) ↔
  ∃ before after, cs = before ++ c :: after ∧ Type_ c = ty ∧
                  ∀ y, y ∈ before → Type_ y ≠ ty.
Proof.
  split.
  - intros [i Hf]. apply FindStatusCondition_Some in Hf as (Hi & Hty & Hfirst).
    exists (take i cs), (drop (S i) cs). split_and!; [|done|].
    + by rewrite take_drop_middle.
    + intros y [j Hj]%list_elem_of_lookup.
      apply lookup_take_Some in Hj as [Hj Hlt]. eauto.
  - intros (before & after & -> & Hty & Hbefore).
    exists (length before). apply FindStatusCondition_Some. split_and!; [|done|].
    + by rewrite list_lookup_middle.
    + intros j y Hj Hlt. rewrite lookup_app_l in Hj by done.
      apply Hbefore. apply list_elem_of_lookup. eauto.
Qed.

(** With one record per type, the scan finds a record exactly when the list
    holds it. *)
Lemma FindStatusCondition_elem_of cs ty c :
  NoDup (Type_ <$> cs) →
  (∃ i, FindStatusCondition cs ty = Some (i, c)) ↔ c ∈ cs ∧ Type_ c = ty.
Proof.
  intros Hnd. split.
  - intros [i (Hi & Hty & _)%FindStatusCondition_Some]. split; [|done].
    apply list_elem_of_lookup. eauto.
  - intros [[j Hj]%list_elem_of_lookup Hty].
    destruct (FindStatusCondition cs ty) as [[i c0]|] eqn:Hf.
    + apply FindStatusCondition_Some in Hf as (Hi & Hty0 & _).
      assert (i = j) as ->.
      { eapply (NoDup_lookup _ _ _ ty Hnd); rewrite list_lookup_fmap.
        - by rewrite Hi; simpl; f_equal.
        - by rewrite Hj; simpl; f_equal. }
      exists j. congruence.
    + exfalso. eapply FindStatusCondition_None; [done| |done].
      apply list_elem_of_lookup. eauto.
Qed.

(** The two scans of the library agree. *)
Lemma IsStatusConditionPresentAndEqual_find cs ty s :
  IsStatusConditionPresentAndEqual cs ty s =
  match FindStatusCondition cs ty with
  | Some (_, c) => bool_decide (Status c = s)
  | None => false
  end.
Proof.
  unfold FindStatusCondition. induction cs as [|c cs IH]; simpl; [done|].
  rewrite IH. case_bool_decide; case_decide; try done.
  by destruct (list_find _ cs) as [[??]|].
Qed.

(** Writing through the pointer leaves it the first record of the type. *)
Lemma FindStatusCondition_insert cs ty i c c' :
  FindStatusCondition cs ty = Some (i, c) → Type_ c' = ty →
  FindStatusCondition (<[i := c']> cs) ty = Some (i, c').
Proof.
  intros (Hi & Hty & Hfirst)%FindStatusCondition_Some Hty'.
  apply FindStatusCondition_Some. split_and!; [|done|].
  - apply list_lookup_insert_eq. by eapply lookup_lt_Some.
  - intros j y Hj Hlt. rewrite list_lookup_insert_ne in Hj by lia. eauto.
Qed.

(** An appended record of a type that was absent is the first of its type. *)
Lemma FindStatusCondition_app_new cs ty c' :
  FindStatusCondition cs ty = None → Type_ c' = ty →
  FindStatusCondition (cs ++ [c']) ty = Some (length cs, c').
Proof.
  intros Hnone Hty. apply FindStatusCondition_Some. split_and!; [|done|].
  - by rewrite list_lookup_middle.
  - intros j y Hj Hlt. rewrite lookup_app_l in Hj by done.
    eapply FindStatusCondition_None; [done|]. apply list_elem_of_lookup. eauto.
Qed.

(** The three ways [SetStatusCondition] goes when the caller leaves the
    transition time zero. *)
Lemma SetStatusCondition_absent cs ty s r m k :
  FindStatusCondition cs ty = None →
  SetStatusCondition cs (mkCondition ty s 0 r m) k =
  (cs ++ [mkCondition ty s (wall k (ticks k)) r m], mkClock (wall k) (S (ticks k))).
Proof. unfold SetStatusCondition. simpl. by intros ->. Qed.

Lemma SetStatusCondition_same cs ty s r m k i c :
  FindStatusCondition cs ty = Some (i, c) → Status c = s →
  SetStatusCondition cs (mkCondition ty s 0 r m) k =
  (<[i := mkCondition (Type_ c) s (LastTransitionTime c) r m]> cs, k).
Proof.
  unfold SetStatusCondition. simpl. intros -> <-.
  by rewrite bool_decide_eq_false_2 by (intros H; by apply H).
Qed.

Lemma SetStatusCondition_changed cs ty s r m k i c :
  FindStatusCondition cs ty = Some (i, c) → Status c ≠ s →
  SetStatusCondition cs (mkCondition ty s 0 r m) k =
  (<[i := mkCondition (Type_ c) s (wall k (ticks k)) r m]> cs,
   mkClock (wall k) (S (ticks k))).
Proof.
  unfold SetStatusCondition. simpl. intros -> Hne.
  by rewrite bool_decide_eq_true_2 by done.
Qed.

(** After the upsert the condition of that type has the new status, reason
    and message. *)
Lemma SetStatusCondition_find cs ty s r m k :
  ∃ i t, FindStatusCondition (SetStatusCondition cs (mkCondition ty s 0 r m) k).1 ty
         = Some (i, mkCondition ty s t r m).
Proof.
  destruct (FindStatusCondition cs ty) as [[i c]|] eqn:Hf.
  - pose proof Hf as (_ & Hty & _)%FindStatusCondition_Some.
    destruct (decide (Status c = s)) as [Hs|Hs].
    + rewrite (SetStatusCondition_same _ _ _ _ _ _ _ _ Hf Hs). simpl.
      exists i, (LastTransitionTime c). rewrite Hty.
      by apply (FindStatusCondition_insert _ _ _ _ _ Hf).
    + rewrite (SetStatusCondition_changed _ _ _ _ _ _ _ _ Hf Hs). simpl.
      exists i, (wall k (ticks k)). rewrite Hty.
      by apply (FindStatusCondition_insert _ _ _ _ _ Hf).
  - rewrite (SetStatusCondition_absent _ _ _ _ _ _ Hf). simpl.
    exists (length cs), (wall k (ticks k)).
    by apply FindStatusCondition_app_new.
Qed.

(** The upsert keeps the types of the records that were there, and adds the
    new type at the end only when it was absent. *)
Lemma SetStatusCondition_types cs ty s r m k :
  Type_ <$> (SetStatusCondition cs (mkCondition ty s 0 r m) k).1 =
  match FindStatusCondition cs ty with
  | Some _ => Type_ <$> cs
  | None => (Type_ <$> cs) ++ [ty]
  end.
Proof.
  destruct (FindStatusCondition cs ty) as [[i c]|] eqn:Hf.
  - pose proof Hf as (Hi & Hty & _)%FindStatusCondition_Some.
    assert (∀ t, Type_ <$> <[i := mkCondition (Type_ c) s t r m]> cs = Type_ <$> cs) as Hins.
    { intros t. rewrite list_fmap_insert. simpl.
      apply list_insert_id. by rewrite list_lookup_fmap, Hi. }
    destruct (decide (Status c = s)) as [Hs|Hs].
    + rewrite (SetStatusCondition_same _ _ _ _ _ _ _ _ Hf Hs). apply Hins.
    + rewrite (SetStatusCondition_changed _ _ _ _ _ _ _ _ Hf Hs). apply Hins.
  - rewrite (SetStatusCondition_absent _ _ _ _ _ _ Hf). simpl.
    by rewrite fmap_app.
Qed.

End meta_facts.

(** * Facts about the snapshot's methods *)

Section snapshot_facts.
Import meta.
Implicit Types (a : ApplicationSnapshot) (k : Clock) (c : metav1.Condition).

Lemma present_with_find cs ty P :
  present_with cs ty P ↔ ∃ i c, FindStatusCondition cs ty = Some (i, c) ∧ P (metav1.Status c).
Proof.
  unfold present_with. split.
  - intros (before & c & after & Hcs & Hbefore & Hty & HP).
    destruct (proj2 (FindStatusCondition_split cs ty c)) as [i Hi]; [|by eauto].
    by exists before, after.
  - intros (i & c & Hf & HP).
    destruct (proj1 (FindStatusCondition_split cs ty c)) as (before & after & ? & ? & ?);
      [by eauto|].
    by exists before, c, after.
Qed.

Lemma contains_with_find cs ty P :
  NoDup (metav1.Type_ <$> cs) →
  contains_with cs ty P ↔ ∃ i c, FindStatusCondition cs ty = Some (i, c) ∧ P (metav1.Status c).
Proof.
  intros Hnd. unfold contains_with. split.
  - intros (c & Hin & Hty & HP).
    destruct (proj2 (FindStatusCondition_elem_of cs ty c Hnd)) as [i Hi]; [done|].
    by exists i, c.
  - intros (i & c & Hf & HP).
    destruct (proj1 (FindStatusCondition_elem_of cs ty c Hnd)) as [? ?]; [by eauto|].
    by exists c.
Qed.

Lemma HasSucceeded_find a :
  HasSucceeded a =
  match FindStatusCondition (Conditions (Status a)) applicationSnapshotConditionType with
  | Some (_, c) => negb (bool_decide (metav1.Status c = metav1.ConditionTrue))
  | None => true
  end.
Proof.
  unfold HasSucceeded, IsStatusConditionTrue.
  rewrite IsStatusConditionPresentAndEqual_find.
  by destruct (FindStatusCondition _ _) as [[??]|].
Qed.

Lemma IsDone_succeeded a :
  IsDone a = match succeeded a with
             | Some c => bool_decide (metav1.Status c ≠ metav1.ConditionUnknown)
             | None => false
             end.
Proof.
  unfold IsDone, succeeded. by destruct (FindStatusCondition _ _) as [[??]|].
Qed.

Lemma setStatusConditionWithMessage_eq s r m a k :
  setStatusConditionWithMessage s r m a k =
  let u := SetStatusCondition (Conditions (Status a))
             (metav1.mkCondition applicationSnapshotConditionType s 0 r m) k in
  (set_Conditions u.1 a, u.2).
Proof.
  unfold setStatusConditionWithMessage, ApplicationSnapshotReason_String. run_M.
  by destruct (SetStatusCondition _ _ k).
Qed.

(** After the upsert the Succeeded condition carries what was asked for. *)
Lemma setStatusConditionWithMessage_succeeded s r m a k :
  ∃ t, succeeded (setStatusConditionWithMessage s r m a k).1 =
       Some (metav1.mkCondition applicationSnapshotConditionType s t r m).
Proof.
  rewrite setStatusConditionWithMessage_eq. unfold succeeded. simpl.
  destruct (SetStatusCondition_find (Conditions (Status a))
              applicationSnapshotConditionType s r m k) as (i & t & ->).
  by exists t.
Qed.

Lemma setStatusConditionWithMessage_times s r m a k :
  StartTime (Status (setStatusConditionWithMessage s r m a k).1) = StartTime (Status a) ∧
  CompletionTime (Status (setStatusConditionWithMessage s r m a k).1) = CompletionTime (Status a).
Proof. by rewrite setStatusConditionWithMessage_eq. Qed.

Lemma setStatusConditionWithMessage_IsDone s r m a k :
  IsDone (setStatusConditionWithMessage s r m a k).1 = bool_decide (s ≠ metav1.ConditionUnknown).
Proof.
  rewrite IsDone_succeeded.
  by destruct (setStatusConditionWithMessage_succeeded s r m a k) as [t ->].
Qed.

(** The guards: a method whose guard holds returns the receiver and does not
    read the clock. *)
Lemma MarkFailed_noop r m a k :
  IsDone a = true → CompletionTime (Status a) ≠ None → MarkFailed r m a k = (a, k).
Proof.
  intros Hd Hc. unfold MarkFailed. by rewrite Hd, bool_decide_eq_true_2.
Qed.

Lemma MarkSucceeded_noop a k :
  IsDone a = true → CompletionTime (Status a) ≠ None → MarkSucceeded a k = (a, k).
Proof.
  intros Hd Hc. unfold MarkSucceeded. by rewrite Hd, bool_decide_eq_true_2.
Qed.

Lemma MarkInvalid_noop r m a k : IsDone a = true → MarkInvalid r m a k = (a, k).
Proof. intros Hd. unfold MarkInvalid. by rewrite Hd. Qed.

Lemma MarkRunning_noop a k : HasStarted a = true → MarkRunning a k = (a, k).
Proof.
  intros Hs. unfold MarkRunning. rewrite Hs.
  unfold HasStarted in Hs. apply andb_true_iff in Hs as [Hs _].
  by rewrite Hs.
Qed.

(** The guards fail: what each method then does. *)
Lemma MarkFailed_go r m a k :
  IsDone a && bool_decide (CompletionTime (Status a) ≠ None) = false →
  MarkFailed r m a k =
  setStatusConditionWithMessage metav1.ConditionFalse r m
    (set_CompletionTime (Some (wall k (ticks k))) a) (mkClock (wall k) (S (ticks k))).
Proof. intros Hg. unfold MarkFailed. by rewrite Hg. Qed.

Lemma MarkSucceeded_go a k :
  IsDone a && bool_decide (CompletionTime (Status a) ≠ None) = false →
  MarkSucceeded a k =
  setStatusConditionWithMessage metav1.ConditionTrue ApplicationSnapshotReasonSucceeded ""
    (set_CompletionTime (Some (wall k (ticks k))) a) (mkClock (wall k) (S (ticks k))).
Proof. intros Hg. unfold MarkSucceeded. by rewrite Hg. Qed.

Lemma MarkInvalid_go r m a k :
  IsDone a = false →
  MarkInvalid r m a k = setStatusConditionWithMessage metav1.ConditionFalse r m a k.
Proof. intros Hg. unfold MarkInvalid. by rewrite Hg. Qed.

Lemma MarkRunning_go a k :
  HasStarted a = false →
  MarkRunning a k =
  setStatusConditionWithMessage metav1.ConditionUnknown ApplicationSnapshotReasonTestsRunning ""
    (set_StartTime (Some (wall k (ticks k))) a) (mkClock (wall k) (S (ticks k))).
Proof. intros Hg. unfold MarkRunning. by rewrite Hg. Qed.

End snapshot_facts.

(** * The methods on concrete snapshots *)

Section examples.

(** The scenario created, running, succeeded: both times are set once and
    the condition ends as (True, Succeeded, empty message). *)
Example snapshot_succeeded_reached :
  result (a ← MarkRunning snapshot0; MarkSucceeded a) clock0 = snapshot_succeeded.
Proof. reflexivity. Qed.

Example snapshot_failed_reached :
  MarkFailed "Error" "x" snapshot0 clock0 = (snapshot_failed, clock2).
Proof. reflexivity. Qed.

Example HasStarted_fresh_then_running :
  HasStarted snapshot0 = false ∧ HasStarted (result (MarkRunning snapshot0) clock0) = true.
Proof. split; reflexivity. Qed.

(** [HasSucceeded] answers true on a snapshot that has no condition yet and
    false on one that succeeded. *)
Example HasSucceeded_fresh_and_succeeded :
  HasSucceeded snapshot0 = true ∧ HasSucceeded snapshot_succeeded = false.
Proof. split; reflexivity. Qed.

Example IsDone_fresh_running_done :
  IsDone snapshot0 = false ∧
  IsDone (result (MarkRunning snapshot0) clock0) = false ∧
  IsDone snapshot_failed = true ∧
  IsDone snapshot_succeeded = true.
Proof. split_and!; reflexivity. Qed.

(** Outside the data model's invariant the first record of the type decides:
    with an Unknown record before a True one the snapshot is neither done nor
    "True", though the conditions contain a True record. *)
Example first_record_decides :
  IsDone snapshot_two_records = false ∧
  HasSucceeded snapshot_two_records = true ∧
  contains_with (Conditions (Status snapshot_two_records)) "Succeeded"
    (λ s, s = metav1.ConditionTrue) ∧
  ¬ one_per_type (Conditions (Status snapshot_two_records)).
Proof.
  split_and!; [reflexivity|reflexivity| |].
  - exists (metav1.mkCondition "Succeeded" metav1.ConditionTrue 2 "Succeeded" "").
    split_and!; [|reflexivity|reflexivity].
    apply list_elem_of_further, list_elem_of_here.
  - intros Hnd. apply NoDup_cons in Hnd as [Hnotin _].
    apply Hnotin, list_elem_of_here.
Qed.

(** A start time equal to Go's zero instant does not count as started, so
    on a clock that reads the zero instant a second [MarkRunning] writes the
    start time again. *)
Example MarkRunning_on_zero_reading :
  StartTime (Status (result (MarkRunning snapshot0) clock_from_zero)) = Some 0%Z ∧
  StartTime (Status (result (a ← MarkRunning snapshot0; MarkRunning a) clock_from_zero))
    = Some 2%Z.
Proof. split; reflexivity. Qed.

End examples.

(** * The properties of the specification *)

Section queries.
Import meta.
Implicit Types (a : ApplicationSnapshot) (k : Clock).

(** C1. [HasSucceeded] is the negation of "the Succeeded condition is present
    with status True": it returns true exactly when the first record of type
    Succeeded, if there is one, does not have status True.  On conditions
    with one record per type this is the same as: the conditions do not
    contain a record of type Succeeded with status True. *)
Theorem C1_HasSucceeded_negates_succeeded_true a :
  (HasSucceeded a = true ↔
   ¬ present_with (Conditions (Status a)) "Succeeded" (λ s, s = metav1.ConditionTrue)) ∧
  (one_per_type (Conditions (Status a)) →
   (HasSucceeded a = true ↔
    ¬ contains_with (Conditions (Status a)) "Succeeded" (λ s, s = metav1.ConditionTrue))).
Proof.
  assert (HasSucceeded a = true ↔
          ¬ ∃ i c, FindStatusCondition (Conditions (Status a)) "Succeeded" = Some (i, c) ∧
                   metav1.Status c = metav1.ConditionTrue) as Hfind.
  { rewrite HasSucceeded_find. unfold applicationSnapshotConditionType.
    destruct (FindStatusCondition _ _) as [[i c]|].
    - rewrite negb_true_iff, bool_decide_eq_false. split.
      + intros Hne (? & ? & [= <- <-] & ?). done.
      + intros Hno Htrue. apply Hno. eauto.
    - split; [|done]. intros _ (? & ? & [=] & _). }
  split.
  - by rewrite present_with_find.
  - intros Hone. by rewrite contains_with_find.
Qed.

(** C3. [IsDone] returns true exactly when the Succeeded condition (the first
    record of that type) exists with a status other than Unknown, that is,
    True or False; it returns false when no record of type Succeeded exists.
    On conditions with one record per type: exactly when the conditions
    contain a record of type Succeeded whose status is not Unknown. *)
Theorem C3_IsDone_iff_succeeded_not_unknown a :
  (IsDone a = true ↔
   present_with (Conditions (Status a)) "Succeeded" (λ s, s ≠ metav1.ConditionUnknown)) ∧
  (IsDone a = true ↔
   present_with (Conditions (Status a)) "Succeeded"
     (λ s, s = metav1.ConditionTrue ∨ s = metav1.ConditionFalse)) ∧
  ((∀ c, c ∈ Conditions (Status a) → metav1.Type_ c ≠ "Succeeded") → IsDone a = false) ∧
  (one_per_type (Conditions (Status a)) →
   (IsDone a = true ↔
    contains_with (Conditions (Status a)) "Succeeded" (λ s, s ≠ metav1.ConditionUnknown))).
Proof.
  assert (∀ P : metav1.ConditionStatus → Prop,
            (∀ s, P s ↔ s ≠ metav1.ConditionUnknown) →
            IsDone a = true ↔
            ∃ i c, FindStatusCondition (Conditions (Status a)) "Succeeded" = Some (i, c) ∧
                   P (metav1.Status c)) as Hfind.
  { intros P HP. unfold IsDone, applicationSnapshotConditionType.
    destruct (FindStatusCondition _ _) as [[i c]|].
    - rewrite bool_decide_eq_true. split.
      + intros Hne. exists i, c. by rewrite HP.
      + intros (? & ? & [= <- <-] & ?). by apply HP.
    - split; [done|]. intros (? & ? & [=] & _). }
  split_and!.
  - rewrite present_with_find. by apply (Hfind (λ s, s ≠ metav1.ConditionUnknown)).
  - rewrite present_with_find.
    apply (Hfind (λ s, s = metav1.ConditionTrue ∨ s = metav1.ConditionFalse)).
    intros []; intuition congruence.
  - intros Habsent. unfold IsDone, applicationSnapshotConditionType.
    by rewrite (proj2 (FindStatusCondition_None _ _) Habsent).
  - intros Hone. rewrite contains_with_find by done.
    by apply (Hfind (λ s, s ≠ metav1.ConditionUnknown)).
Qed.

End queries.

Section transitions.
Import meta.
Implicit Types (a : ApplicationSnapshot) (k : Clock).
Implicit Types (reason : ApplicationSnapshotReason) (message : string).

(** C4. [MarkRunning] followed by [MarkRunning]: the second call is a no-op,
    so the start time is the one the first call left.  The reading the first
    call takes from the clock is assumed not to be Go's zero instant, which
    [HasStarted] would take for "not started". *)
Theorem C4_MarkRunning_twice_keeps_startTime a k :
  wall k (ticks k) ≠ 0%Z →
  StartTime (Status (result (a1 ← MarkRunning a; MarkRunning a1) k)) =
    StartTime (Status (result (MarkRunning a) k)) ∧
  (a1 ← MarkRunning a; MarkRunning a1) k = MarkRunning a k.
Proof.
  intros Hclock.
  assert (HasStarted (MarkRunning a k).1 = true) as Hstarted.
  { destruct (HasStarted a) eqn:Hs.
    - by rewrite MarkRunning_noop.
    - rewrite MarkRunning_go by done. unfold HasStarted.
      destruct (setStatusConditionWithMessage_times metav1.ConditionUnknown
                  ApplicationSnapshotReasonTestsRunning ""
                  (set_StartTime (Some (wall k (ticks k))) a)
                  (mkClock (wall k) (S (ticks k)))) as [-> _].
      simpl. unfold metav1.Time_IsZero.
      by rewrite bool_decide_eq_false_2. }
  assert ((a1 ← MarkRunning a; MarkRunning a1) k = MarkRunning a k) as Hnoop.
  { run_M. destruct (MarkRunning a k) as [a1 k1] eqn:H1. simpl in Hstarted.
    by apply MarkRunning_noop. }
  split; [|done]. unfold result. by rewrite Hnoop.
Qed.

(** C5. After [MarkSucceeded], [IsDone] is true, and a following
    [MarkFailed], whatever its reason and message, changes nothing: the
    Succeeded condition and the completion time are as they were. *)
Theorem C5_MarkSucceeded_then_MarkFailed_noop a k reason message :
  let a1 := result (MarkSucceeded a) k in
  let a2 := result (a1 ← MarkSucceeded a; MarkFailed reason message a1) k in
  IsDone a1 = true ∧
  succeeded a2 = succeeded a1 ∧
  CompletionTime (Status a2) = CompletionTime (Status a1) ∧
  a2 = a1.
Proof.
  assert (IsDone (MarkSucceeded a k).1 = true ∧
          CompletionTime (Status (MarkSucceeded a k).1) ≠ None) as [Hdone Hcompl].
  { destruct (IsDone a && bool_decide (CompletionTime (Status a) ≠ None)) eqn:Hg.
    - apply andb_true_iff in Hg as [Hd Hc%bool_decide_eq_true].
      by rewrite MarkSucceeded_noop.
    - rewrite MarkSucceeded_go by done. split.
      + by rewrite setStatusConditionWithMessage_IsDone.
      + by rewrite (proj2 (setStatusConditionWithMessage_times _ _ _ _ _)). }
  assert (result (a1 ← MarkSucceeded a; MarkFailed reason message a1) k =
          result (MarkSucceeded a) k) as Hnoop.
  { run_M. destruct (MarkSucceeded a k) as [a1 k1]. simpl in *.
    by rewrite MarkFailed_noop. }
  simpl. rewrite Hnoop. by split_and!.
Qed.

(** C6. On a snapshot that is not already done with its completion time set,
    [MarkFailed "Error" "x"] leaves the Succeeded condition with status
    False, reason "Error" and message "x", and the completion time set (to
    the clock's reading). *)
Theorem C6_MarkFailed_sets_condition_and_completionTime a k :
  ¬ (IsDone a = true ∧ CompletionTime (Status a) ≠ None) →
  let a1 := result (MarkFailed "Error" "x" a) k in
  (∃ t, succeeded a1 = Some (metav1.mkCondition "Succeeded" metav1.ConditionFalse t "Error" "x")) ∧
  CompletionTime (Status a1) ≠ None ∧
  CompletionTime (Status a1) = Some (wall k (ticks k)).
Proof.
  intros Hguard. simpl. unfold result.
  rewrite MarkFailed_go.
  - split; [apply setStatusConditionWithMessage_succeeded|].
    by rewrite (proj2 (setStatusConditionWithMessage_times _ _ _ _ _)).
  - apply not_true_is_false. intros [Hd Hc%bool_decide_eq_true]%andb_true_iff. tauto.
Qed.

(** C7. On a fresh snapshot [MarkInvalid "Error" "x"] sets the Succeeded
    condition to (False, "Error", "x") and the completion time stays nil;
    and on any snapshot [MarkInvalid] leaves the completion time as it
    was. *)
Theorem C7_MarkInvalid_fresh_leaves_completionTime a k :
  fresh a →
  let a1 := result (MarkInvalid "Error" "x" a) k in
  (Conditions (Status a1) =
     [metav1.mkCondition "Succeeded" metav1.ConditionFalse (wall k (ticks k)) "Error" "x"] ∧
   ∃ t, succeeded a1 = Some (metav1.mkCondition "Succeeded" metav1.ConditionFalse t "Error" "x")) ∧
  CompletionTime (Status a1) = None ∧
  ∀ b reason message k',
    CompletionTime (Status (result (MarkInvalid reason message b) k')) =
    CompletionTime (Status b).
Proof.
  intros (Hcs & Hstart & Hcompl). simpl.
  assert (∀ b reason message k',
            CompletionTime (Status (result (MarkInvalid reason message b) k')) =
            CompletionTime (Status b)) as Hframe.
  { intros b reason message k'. unfold result. destruct (IsDone b) eqn:Hd.
    - by rewrite MarkInvalid_noop.
    - rewrite MarkInvalid_go by done.
      apply setStatusConditionWithMessage_times. }
  split_and!; [| |by rewrite Hframe|done].
  - unfold result, MarkInvalid, IsDone. rewrite Hcs. simpl.
    rewrite setStatusConditionWithMessage_eq, Hcs. done.
  - unfold result, MarkInvalid, IsDone. rewrite Hcs. simpl.
    apply setStatusConditionWithMessage_succeeded.
Qed.

(** C10. On a fresh snapshot, [MarkInvalid] makes [IsDone] true and leaves
    the completion time nil, so a following [MarkFailed] is not a no-op: it
    sets the completion time and overwrites the condition's reason and
    message, the status staying False. *)
Theorem C10_MarkInvalid_then_MarkFailed_not_noop a k r1 m1 r2 m2 :
  fresh a →
  let a1 := result (MarkInvalid r1 m1 a) k in
  let a2 := result (a1 ← MarkInvalid r1 m1 a; MarkFailed r2 m2 a1) k in
  IsDone a1 = true ∧
  CompletionTime (Status a1) = None ∧
  CompletionTime (Status a2) ≠ None ∧
  (∃ t, succeeded a2 = Some (metav1.mkCondition "Succeeded" metav1.ConditionFalse t r2 m2)) ∧
  a2 ≠ a1.
Proof.
  intros (Hcs & Hstart & Hcompl). simpl.
  assert (MarkInvalid r1 m1 a k =
          setStatusConditionWithMessage metav1.ConditionFalse r1 m1 a k) as Hinv.
  { apply MarkInvalid_go. unfold IsDone. by rewrite Hcs. }
  assert (IsDone (MarkInvalid r1 m1 a k).1 = true) as Hdone.
  { by rewrite Hinv, setStatusConditionWithMessage_IsDone. }
  assert (CompletionTime (Status (MarkInvalid r1 m1 a k).1) = None) as Hnil.
  { by rewrite Hinv, (proj2 (setStatusConditionWithMessage_times _ _ _ _ _)). }
  assert (CompletionTime
            (Status (result (a1 ← MarkInvalid r1 m1 a; MarkFailed r2 m2 a1) k)) ≠ None ∧
          ∃ t, succeeded (result (a1 ← MarkInvalid r1 m1 a; MarkFailed r2 m2 a1) k) =
               Some (metav1.mkCondition "Succeeded" metav1.ConditionFalse t r2 m2))
    as [Hset Hcond].
  { run_M. destruct (MarkInvalid r1 m1 a k) as [a1 k1]. simpl in *.
    rewrite MarkFailed_go by (by rewrite Hdone, Hnil). split.
    - by rewrite (proj2 (setStatusConditionWithMessage_times _ _ _ _ _)).
    - apply setStatusConditionWithMessage_succeeded. }
  split_and!; try done.
  intros Heq. apply Hset. unfold result in *. by rewrite Heq.
Qed.

End transitions.

Section upsert.
Import meta.
Implicit Types (a : ApplicationSnapshot) (k : Clock) (c : metav1.Condition).
Implicit Types (s : metav1.ConditionStatus).

(** One upsert, seen from the condition that was there: the transition time
    is kept when the status is the same and is the clock's reading when it
    is not. *)
Lemma setStatusConditionWithMessage_transition s r m a k c :
  succeeded a = Some c →
  succeeded (setStatusConditionWithMessage s r m a k).1 =
  Some (metav1.mkCondition "Succeeded" s
          (if decide (metav1.Status c = s)
           then metav1.LastTransitionTime c else wall k (ticks k)) r m).
Proof.
  unfold succeeded. intros Hsome.
  destruct (FindStatusCondition (Conditions (Status a)) applicationSnapshotConditionType)
    as [[i c']|] eqn:Hf; simplify_eq/=.
  pose proof Hf as (_ & Hty & _)%FindStatusCondition_Some.
  rewrite setStatusConditionWithMessage_eq. simpl. case_decide as Hs.
  - rewrite (SetStatusCondition_same _ _ _ _ _ _ _ _ Hf Hs). simpl.
    rewrite Hty. by erewrite FindStatusCondition_insert.
  - rewrite (SetStatusCondition_changed _ _ _ _ _ _ _ _ Hf Hs). simpl.
    rewrite Hty. by erewrite FindStatusCondition_insert.
Qed.

(** C8. Upserting the Succeeded condition twice: with the same status the
    second upsert leaves [lastTransitionTime] as the first left it; with a
    different status it sets [lastTransitionTime] to the clock's reading at
    the second upsert, a new value whenever the clock has moved off the old
    one.  The same holds of one upsert against the condition already
    there. *)
Theorem C8_lastTransitionTime_follows_status a k s1 r1 m1 s2 r2 m2 :
  let u1 := setStatusConditionWithMessage s1 r1 m1 a k in
  let u2 := setStatusConditionWithMessage s2 r2 m2 u1.1 u1.2 in
  let now := wall u1.2 (ticks u1.2) in
  (∃ c1 c2,
     succeeded u1.1 = Some c1 ∧ succeeded u2.1 = Some c2 ∧
     metav1.Status c1 = s1 ∧ metav1.Status c2 = s2 ∧
     (s1 = s2 → metav1.LastTransitionTime c2 = metav1.LastTransitionTime c1) ∧
     (s1 ≠ s2 → metav1.LastTransitionTime c2 = now) ∧
     (s1 ≠ s2 → now ≠ metav1.LastTransitionTime c1 →
      metav1.LastTransitionTime c2 ≠ metav1.LastTransitionTime c1)) ∧
  (∀ c0, succeeded a = Some c0 →
     ∃ c1, succeeded u1.1 = Some c1 ∧
       (metav1.Status c0 = s1 →
        metav1.LastTransitionTime c1 = metav1.LastTransitionTime c0) ∧
       (metav1.Status c0 ≠ s1 → metav1.LastTransitionTime c1 = wall k (ticks k))).
Proof.
  simpl. split.
  - destruct (setStatusConditionWithMessage_succeeded s1 r1 m1 a k) as [t1 H1].
    eexists _, _. split; [exact H1|].
    rewrite (setStatusConditionWithMessage_transition _ _ _ _ _ _ H1). simpl.
    split; [done|]. case_decide; split_and!; try done; congruence.
  - intros c0 H0. eexists. split.
    + by apply setStatusConditionWithMessage_transition.
    + simpl. case_decide; split; done.
Qed.

End upsert.

Section invariant.
Import meta.
Implicit Types (a : ApplicationSnapshot) (k : Clock) (o : Op).

(** Every operation leaves the conditions alone or upserts the Succeeded
    condition into them. *)
Lemma step_conditions o a k :
  Conditions (Status (result (step o a) k)) = Conditions (Status a) ∨
  ∃ s r m k',
    Conditions (Status (result (step o a) k)) =
    (SetStatusCondition (Conditions (Status a))
       (metav1.mkCondition applicationSnapshotConditionType s 0 r m) k').1.
Proof.
  unfold result. destruct o as [|r m|r m|]; simpl.
  - destruct (HasStarted a) eqn:Hg.
    + left. by rewrite MarkRunning_noop.
    + right. rewrite MarkRunning_go, setStatusConditionWithMessage_eq by done.
      simpl. eauto.
  - destruct (IsDone a && bool_decide (CompletionTime (Status a) ≠ None)) eqn:Hg.
    + left. apply andb_true_iff in Hg as [Hd Hc%bool_decide_eq_true].
      by rewrite MarkFailed_noop.
    + right. rewrite MarkFailed_go, setStatusConditionWithMessage_eq by done.
      simpl. eauto.
  - destruct (IsDone a) eqn:Hg.
    + left. by rewrite MarkInvalid_noop.
    + right. rewrite MarkInvalid_go, setStatusConditionWithMessage_eq by done.
      simpl. eauto.
  - destruct (IsDone a && bool_decide (CompletionTime (Status a) ≠ None)) eqn:Hg.
    + left. apply andb_true_iff in Hg as [Hd Hc%bool_decide_eq_true].
      by rewrite MarkSucceeded_noop.
    + right. rewrite MarkSucceeded_go, setStatusConditionWithMessage_eq by done.
      simpl. eauto.
Qed.

Lemma SetStatusCondition_one_per_type cs ty s r m k :
  one_per_type cs →
  one_per_type (SetStatusCondition cs (metav1.mkCondition ty s 0 r m) k).1.
Proof.
  unfold one_per_type. intros Hnd. rewrite SetStatusCondition_types.
  destruct (FindStatusCondition cs ty) as [[i c]|] eqn:Hf; [done|].
  apply NoDup_app. split_and!; [done| |apply NoDup_singleton].
  intros ty' [c [Hty Hc]]%list_elem_of_fmap Hin%list_elem_of_singleton. subst ty'.
  by eapply FindStatusCondition_None.
Qed.

Lemma step_one_per_type o a k :
  one_per_type (Conditions (Status a)) →
  one_per_type (Conditions (Status (result (step o a) k))).
Proof.
  intros Hone. destruct (step_conditions o a k) as [->|(s & r & m & k' & ->)]; [done|].
  by apply SetStatusCondition_one_per_type.
Qed.

Lemma run_one_per_type os a k :
  one_per_type (Conditions (Status a)) →
  one_per_type (Conditions (Status (result (run os a) k))).
Proof.
  revert a k. induction os as [|o os IH]; intros a k Hone; [done|].
  pose proof (step_one_per_type o a k Hone) as Hstep.
  unfold result in *. simpl. run_M.
  destruct (step o a k) as [a1 k1]. by apply IH.
Qed.

(** C9. If the conditions hold at most one record per type, they still do
    after any of [MarkRunning], [MarkFailed], [MarkInvalid], [MarkSucceeded],
    and after any sequence of them.  When a record of type Succeeded exists
    the operation writes into it: the records keep their number and their
    types, none is appended. *)
Theorem C9_one_condition_per_type_preserved a o k :
  one_per_type (Conditions (Status a)) →
  one_per_type (Conditions (Status (result (step o a) k))) ∧
  (∀ os, one_per_type (Conditions (Status (result (run os a) k)))) ∧
  (is_Some (succeeded a) →
   metav1.Type_ <$> Conditions (Status (result (step o a) k)) =
     metav1.Type_ <$> Conditions (Status a) ∧
   length (Conditions (Status (result (step o a) k))) = length (Conditions (Status a))).
Proof.
  intros Hone. split_and!.
  - by apply step_one_per_type.
  - intros os. by apply run_one_per_type.
  - intros [c Hc].
    assert (metav1.Type_ <$> Conditions (Status (result (step o a) k)) =
            metav1.Type_ <$> Conditions (Status a)) as Htypes.
    { destruct (step_conditions o a k) as [->|(s & r & m & k' & ->)]; [done|].
      rewrite SetStatusCondition_types. unfold succeeded in Hc.
      by destruct (FindStatusCondition _ _). }
    split; [done|]. by rewrite <-(length_fmap metav1.Type_), Htypes, length_fmap.
Qed.

End invariant.

Section terminal.
Implicit Types (a : ApplicationSnapshot) (k : Clock) (o : Op).

(** On a done snapshot with its completion time set, an operation other than
    [MarkRunning] returns the receiver, and so does [MarkRunning] once the
    snapshot has started. *)
Lemma step_terminal o a k :
  IsDone a = true → CompletionTime (Status a) ≠ None →
  HasStarted a = true ∨ o ≠ OpMarkRunning →
  step o a k = (a, k).
Proof.
  intros Hd Hc Hrun. destruct o as [|r m|r m|]; simpl.
  - destruct Hrun as [Hs|Hne]; [|done]. by apply MarkRunning_noop.
  - by apply MarkFailed_noop.
  - by apply MarkInvalid_noop.
  - by apply MarkSucceeded_noop.
Qed.

(** C2, as the code has it.  A snapshot in a terminal state (Succeeded
    condition True or False) with its completion time set is left as it is,
    and so is the status of its Succeeded condition, by every sequence of
    [MarkFailed], [MarkInvalid] and [MarkSucceeded]; sequences with
    [MarkRunning] leave it too, provided the snapshot has started. *)
Theorem C2_terminal_state_is_kept a os k :
  IsDone a = true → CompletionTime (Status a) ≠ None →
  HasStarted a = true ∨ OpMarkRunning ∉ os →
  run os a k = (a, k) ∧
  succeeded_status (result (run os a) k) = succeeded_status a.
Proof.
  intros Hd Hc Hrun.
  assert (run os a k = (a, k)) as Hnoop.
  { induction os as [|o os IH]; [done|]. simpl. run_M.
    rewrite step_terminal; [| done | done |].
    - apply IH. destruct Hrun as [?|Hnotin]; [by left|right].
      by apply not_elem_of_cons in Hnotin as [_ ?].
    - destruct Hrun as [?|Hnotin]; [by left|right].
      by apply not_elem_of_cons in Hnotin as [? _]. }
  split; [done|]. unfold result. by rewrite Hnoop.
Qed.

(** C2 fails as stated.  [snapshot_failed] is terminal (status False) with
    its completion time set, and has never started; [MarkRunning] then sets
    the status of its Succeeded condition to Unknown. *)
Lemma C2_MarkRunning_leaves_terminal_state :
  IsDone snapshot_failed = true ∧
  CompletionTime (Status snapshot_failed) = Some 100%Z ∧
  succeeded_status snapshot_failed = Some metav1.ConditionFalse ∧
  succeeded_status (result (run [OpMarkRunning] snapshot_failed) clock2)
    = Some metav1.ConditionUnknown ∧
  ¬ (∀ a os k,
       IsDone a = true → CompletionTime (Status a) ≠ None →
       succeeded_status (result (run os a) k) = succeeded_status a).
Proof.
  split_and!; try reflexivity.
  intros Hclaim.
  specialize (Hclaim snapshot_failed [OpMarkRunning] clock2).
  discriminate Hclaim; done.
Qed.

End terminal.

(** * The properties at concrete snapshots *)

(** C1 at a snapshot that succeeded. *)
Lemma C1_witness :
  one_per_type (Conditions (Status snapshot_succeeded)) ∧
  (HasSucceeded snapshot_succeeded = true ↔
   ¬ contains_with (Conditions (Status snapshot_succeeded)) "Succeeded"
       (λ s, s = metav1.ConditionTrue)).
Proof.
  assert (one_per_type (Conditions (Status snapshot_succeeded))) as Hone.
  { apply NoDup_singleton. }
  split; [exact Hone|].
  exact (proj2 (C1_HasSucceeded_negates_succeeded_true snapshot_succeeded) Hone).
Defined.

(** C3 at a snapshot that failed. *)
Lemma C3_witness :
  one_per_type (Conditions (Status snapshot_failed)) ∧
  (IsDone snapshot_failed = true ↔
   contains_with (Conditions (Status snapshot_failed)) "Succeeded"
     (λ s, s ≠ metav1.ConditionUnknown)).
Proof.
  assert (one_per_type (Conditions (Status snapshot_failed))) as Hone.
  { apply NoDup_singleton. }
  split; [exact Hone|].
  exact (proj2 (proj2 (proj2 (C3_IsDone_iff_succeeded_not_unknown snapshot_failed))) Hone).
Defined.

(** C2 at a snapshot that ran and succeeded: four further operations, [MarkRunning]
    among them, leave it and the clock as they are. *)
Lemma C2_witness :
  IsDone snapshot_succeeded = true ∧
  CompletionTime (Status snapshot_succeeded) ≠ None ∧
  HasStarted snapshot_succeeded = true ∧
  run [OpMarkRunning; OpMarkFailed "TestsFailed" "late"; OpMarkInvalid "Error" "x";
       OpMarkSucceeded] snapshot_succeeded clock0 = (snapshot_succeeded, clock0).
Proof.
  assert (CompletionTime (Status snapshot_succeeded) ≠ None) as Hc by discriminate.
  split_and!; [reflexivity|exact Hc|reflexivity|].
  exact (proj1 (C2_terminal_state_is_kept snapshot_succeeded _ clock0
                  eq_refl Hc (or_introl eq_refl))).
Defined.

(** C4 at the fresh snapshot. *)
Lemma C4_witness :
  wall clock0 (ticks clock0) ≠ 0%Z ∧
  StartTime (Status (result (a1 ← MarkRunning snapshot0; MarkRunning a1) clock0)) =
    StartTime (Status (result (MarkRunning snapshot0) clock0)).
Proof.
  assert (wall clock0 (ticks clock0) ≠ 0%Z) as Hclock by discriminate.
  split; [exact Hclock|].
  exact (proj1 (C4_MarkRunning_twice_keeps_startTime snapshot0 clock0 Hclock)).
Defined.

(** C6 at the fresh snapshot, which is not done. *)
Lemma C6_witness :
  ¬ (IsDone snapshot0 = true ∧ CompletionTime (Status snapshot0) ≠ None) ∧
  CompletionTime (Status (result (MarkFailed "Error" "x" snapshot0) clock0)) ≠ None.
Proof.
  assert (¬ (IsDone snapshot0 = true ∧ CompletionTime (Status snapshot0) ≠ None)) as Hguard.
  { intros [Hd _]. discriminate Hd. }
  split; [exact Hguard|].
  exact (proj1 (proj2 (C6_MarkFailed_sets_condition_and_completionTime snapshot0 clock0 Hguard))).
Defined.

(** C7 at the fresh snapshot. *)
Lemma C7_witness :
  fresh snapshot0 ∧
  CompletionTime (Status (result (MarkInvalid "Error" "x" snapshot0) clock0)) = None.
Proof.
  assert (fresh snapshot0) as Hfresh by (by split_and!).
  split; [exact Hfresh|].
  exact (proj1 (proj2 (C7_MarkInvalid_fresh_leaves_completionTime snapshot0 clock0 Hfresh))).
Defined.

(** C9 at a failed snapshot, for the one operation that still writes to it. *)
Lemma C9_witness :
  one_per_type (Conditions (Status snapshot_failed)) ∧
  one_per_type (Conditions (Status (result (step OpMarkRunning snapshot_failed) clock2))).
Proof.
  assert (one_per_type (Conditions (Status snapshot_failed))) as Hone.
  { apply NoDup_singleton. }
  split; [exact Hone|].
  exact (proj1 (C9_one_condition_per_type_preserved snapshot_failed OpMarkRunning clock2 Hone)).
Defined.

(** C10 at the fresh snapshot. *)
Lemma C10_witness :
  fresh snapshot0 ∧
  CompletionTime
    (Status (result (a1 ← MarkInvalid "Error" "x" snapshot0; MarkFailed "TestsFailed" "y" a1)
               clock0)) ≠ None.
Proof.
  assert (fresh snapshot0) as Hfresh by (by split_and!).
  split; [exact Hfresh|].
  exact (proj1 (proj2 (proj2
    (C10_MarkInvalid_then_MarkFailed_not_noop snapshot0 clock0 "Error" "x" "TestsFailed" "y"
       Hfresh)))).
Defined.

(** * Further properties of the methods *)

(** Splits a goal about [step o a k] by the operation and by its guard, and
    rewrites the step with what the method does in that case. *)
Ltac step_cases o a :=
  destruct o as [|?r ?m|?r ?m|]; simpl;
  [ destruct (HasStarted a) eqn:?Hg;
    [ rewrite (MarkRunning_noop a) by done | rewrite (MarkRunning_go a) by done ]
  | destruct (IsDone a && bool_decide (CompletionTime (Status a) ≠ None)) eqn:?Hg;
    [ rewrite (MarkFailed_noop _ _ a)
        by (by apply andb_true_iff in Hg as [? ?%bool_decide_eq_true])
    | rewrite (MarkFailed_go _ _ a) by done ]
  | destruct (IsDone a) eqn:?Hg;
    [ rewrite (MarkInvalid_noop _ _ a) by done | rewrite (MarkInvalid_go _ _ a) by done ]
  | destruct (IsDone a && bool_decide (CompletionTime (Status a) ≠ None)) eqn:?Hg;
    [ rewrite (MarkSucceeded_noop a)
        by (by apply andb_true_iff in Hg as [? ?%bool_decide_eq_true])
    | rewrite (MarkSucceeded_go a) by done ] ].

Section frames.
Implicit Types (a : ApplicationSnapshot) (k : Clock) (o : Op).
Implicit Types (reason : ApplicationSnapshotReason) (message : string).

(** Induction along a sequence of operations, for a property of snapshots. *)
Lemma run_preserves (P : ApplicationSnapshot → Prop) :
  (∀ o a k, P a → P (step o a k).1) →
  ∀ os a k, P a → P (result (run os a) k).
Proof.
  intros Hstep os. induction os as [|o os IH]; intros a k Ha; [done|].
  unfold result in *. simpl. run_M.
  specialize (Hstep o a k Ha). destruct (step o a k) as [a1 k1]. by apply IH.
Qed.

Lemma step_frame o a k :
  TypeMeta (step o a k).1 = TypeMeta a ∧
  ObjectMeta (step o a k).1 = ObjectMeta a ∧
  Spec (step o a k).1 = Spec a ∧
  ReleasePipelineRun (Status (step o a k).1) = ReleasePipelineRun (Status a).
Proof. step_cases o a; try done; by rewrite setStatusConditionWithMessage_eq. Qed.

(** X1. No sequence of the four operations touches anything but the two
    times and the conditions: type and object metadata, the spec (application,
    components, artifacts) and the release pipeline run stay as they were. *)
Theorem run_keeps_metadata_and_spec os a k :
  let a' := result (run os a) k in
  TypeMeta a' = TypeMeta a ∧
  ObjectMeta a' = ObjectMeta a ∧
  Spec a' = Spec a ∧
  ReleasePipelineRun (Status a') = ReleasePipelineRun (Status a).
Proof.
  simpl.
  apply (run_preserves (λ b, TypeMeta b = TypeMeta a ∧ ObjectMeta b = ObjectMeta a ∧
                             Spec b = Spec a ∧
                             ReleasePipelineRun (Status b) = ReleasePipelineRun (Status a)));
    [|done].
  intros o b k' (H1 & H2 & H3 & H4).
  destruct (step_frame o b k') as (-> & -> & -> & ->). done.
Qed.

Lemma step_StartTime o a k :
  o ≠ OpMarkRunning ∨ HasStarted a = true →
  StartTime (Status (step o a k).1) = StartTime (Status a).
Proof.
  intros Hcase. step_cases o a; try done.
  - destruct Hcase; congruence.
  - by rewrite setStatusConditionWithMessage_eq.
  - by rewrite setStatusConditionWithMessage_eq.
  - by rewrite setStatusConditionWithMessage_eq.
Qed.

Lemma step_CompletionTime o a k :
  o = OpMarkRunning ∨ (∃ reason message, o = OpMarkInvalid reason message) →
  CompletionTime (Status (step o a k).1) = CompletionTime (Status a).
Proof.
  intros Hcase. step_cases o a; try done.
  - by rewrite setStatusConditionWithMessage_eq.
  - destruct Hcase as [?|(?&?&?)]; congruence.
  - by rewrite setStatusConditionWithMessage_eq.
  - destruct Hcase as [?|(?&?&?)]; congruence.
Qed.

(** X2. A start time that is set and not the zero instant is never
    overwritten: on a snapshot that has started, every sequence of the four
    operations leaves the start time as it is, and the snapshot started. *)
Theorem run_keeps_startTime_once_started os a k :
  HasStarted a = true →
  StartTime (Status (result (run os a) k)) = StartTime (Status a) ∧
  HasStarted (result (run os a) k) = true.
Proof.
  intros Hs.
  assert (StartTime (Status (result (run os a) k)) = StartTime (Status a)) as Heq.
  { apply (run_preserves (λ b, StartTime (Status b) = StartTime (Status a))); [|done].
    intros o b k' Hb. rewrite step_StartTime; [done|]. right.
    unfold HasStarted in *. by rewrite Hb. }
  split; [done|]. unfold HasStarted in *. by rewrite Heq.
Qed.

(** X3. Which method writes which time.  [MarkFailed], [MarkInvalid] and
    [MarkSucceeded] never write the start time; [MarkRunning] and
    [MarkInvalid] never write the completion time. *)
Theorem methods_write_only_their_time a k reason message :
  StartTime (Status (result (MarkFailed reason message a) k)) = StartTime (Status a) ∧
  StartTime (Status (result (MarkInvalid reason message a) k)) = StartTime (Status a) ∧
  StartTime (Status (result (MarkSucceeded a) k)) = StartTime (Status a) ∧
  CompletionTime (Status (result (MarkRunning a) k)) = CompletionTime (Status a) ∧
  CompletionTime (Status (result (MarkInvalid reason message a) k)) = CompletionTime (Status a).
Proof.
  unfold result. split_and!.
  - by apply (step_StartTime (OpMarkFailed reason message)); left.
  - by apply (step_StartTime (OpMarkInvalid reason message)); left.
  - by apply (step_StartTime OpMarkSucceeded); left.
  - by apply (step_CompletionTime OpMarkRunning); left.
  - apply (step_CompletionTime (OpMarkInvalid reason message)); right. eauto.
Qed.

Lemma step_times_stay_set o a k :
  (is_Some (StartTime (Status a)) → is_Some (StartTime (Status (step o a k).1))) ∧
  (is_Some (CompletionTime (Status a)) → is_Some (CompletionTime (Status (step o a k).1))).
Proof.
  step_cases o a; try done; rewrite setStatusConditionWithMessage_eq; simpl; eauto.
Qed.

(** X4. No operation ever clears a time: over every sequence of the four
    operations a start time that is set stays set, and a completion time that
    is set stays set. *)
Theorem run_never_clears_times os a k :
  (is_Some (StartTime (Status a)) → is_Some (StartTime (Status (result (run os a) k)))) ∧
  (is_Some (CompletionTime (Status a)) →
   is_Some (CompletionTime (Status (result (run os a) k)))).
Proof.
  split; intros Hset.
  - apply (run_preserves (λ b, is_Some (StartTime (Status b)))); [|done].
    intros o b k'. apply step_times_stay_set.
  - apply (run_preserves (λ b, is_Some (CompletionTime (Status b)))); [|done].
    intros o b k'. apply step_times_stay_set.
Qed.

End frames.

Section conditions.
Import meta.
Implicit Types (a : ApplicationSnapshot) (k : Clock) (o : Op).
Implicit Types (cs : list metav1.Condition) (c : metav1.Condition).

(** The upsert leaves every record of another type where it is. *)
Lemma SetStatusCondition_other cs ty s r m k j c :
  cs !! j = Some c → metav1.Type_ c ≠ ty →
  (SetStatusCondition cs (metav1.mkCondition ty s 0 r m) k).1 !! j = Some c.
Proof.
  intros Hj Hne.
  destruct (FindStatusCondition cs ty) as [[i c0]|] eqn:Hf.
  - pose proof Hf as (Hi & Hty & _)%FindStatusCondition_Some.
    assert (i ≠ j) as Hij by (intros ->; congruence).
    destruct (decide (metav1.Status c0 = s)) as [Hs|Hs].
    + rewrite (SetStatusCondition_same _ _ _ _ _ _ _ _ Hf Hs). simpl.
      by rewrite list_lookup_insert_ne.
    + rewrite (SetStatusCondition_changed _ _ _ _ _ _ _ _ Hf Hs). simpl.
      by rewrite list_lookup_insert_ne.
  - rewrite (SetStatusCondition_absent _ _ _ _ _ _ Hf). simpl.
    rewrite lookup_app_l; [done|]. by eapply lookup_lt_Some.
Qed.

Lemma step_other_conditions o a k j c :
  Conditions (Status a) !! j = Some c →
  metav1.Type_ c ≠ applicationSnapshotConditionType →
  Conditions (Status (step o a k).1) !! j = Some c.
Proof.
  intros Hj Hne.
  destruct (step_conditions o a k) as [Heq|(s & r & m & k' & Heq)];
    unfold result in Heq; rewrite Heq; [done|].
  by apply SetStatusCondition_other.
Qed.

(** X5. The operations only ever write the Succeeded condition: over every
    sequence of them, a condition record of any other type stays at its
    position with its status, reason, message and transition time. *)
Theorem run_keeps_conditions_of_other_types os a k j c :
  Conditions (Status a) !! j = Some c →
  metav1.Type_ c ≠ "Succeeded" →
  Conditions (Status (result (run os a) k)) !! j = Some c.
Proof.
  intros Hj Hne.
  apply (run_preserves (λ b, Conditions (Status b) !! j = Some c)); [|done].
  intros o b k' Hb. by apply step_other_conditions.
Qed.

Lemma succeeded_None_types a :
  succeeded a = None ↔
  applicationSnapshotConditionType ∉ metav1.Type_ <$> Conditions (Status a).
Proof.
  unfold succeeded. rewrite fmap_None, FindStatusCondition_None. split.
  - intros Hnone [c [Hty Hc]]%list_elem_of_fmap. by eapply Hnone.
  - intros Hnotin c Hc Hty. apply Hnotin. apply list_elem_of_fmap. eauto.
Qed.

Lemma step_types o a k :
  metav1.Type_ <$> Conditions (Status (step o a k).1) =
    metav1.Type_ <$> Conditions (Status a) ∨
  succeeded a = None ∧
  metav1.Type_ <$> Conditions (Status (step o a k).1) =
    (metav1.Type_ <$> Conditions (Status a)) ++ [applicationSnapshotConditionType].
Proof.
  destruct (step_conditions o a k) as [Heq|(s & r & m & k' & Heq)];
    unfold result in Heq; rewrite Heq; [by left|].
  rewrite SetStatusCondition_types. unfold succeeded.
  destruct (FindStatusCondition _ _); [by left|by right].
Qed.

(** X6. Over every sequence of the four operations the conditions keep their
    types in their order; the one change there can be is a single record of
    type Succeeded appended at the end, and only when there was none.  So the
    number of records never falls and grows by at most one. *)
Theorem run_appends_at_most_one_condition os a k :
  let before := Conditions (Status a) in
  let after := Conditions (Status (result (run os a) k)) in
  (metav1.Type_ <$> after = metav1.Type_ <$> before ∨
   succeeded a = None ∧ metav1.Type_ <$> after = (metav1.Type_ <$> before) ++ ["Succeeded"]) ∧
  (length before ≤ length after ≤ length before + 1)%nat ∧
  (is_Some (succeeded a) → length after = length before).
Proof.
  simpl.
  assert (metav1.Type_ <$> Conditions (Status (result (run os a) k)) =
            metav1.Type_ <$> Conditions (Status a) ∨
          succeeded a = None ∧
          metav1.Type_ <$> Conditions (Status (result (run os a) k)) =
            (metav1.Type_ <$> Conditions (Status a)) ++ ["Succeeded"]) as Htypes.
  { revert a k. induction os as [|o os IH]; intros a k; [by left|].
    unfold result in *. simpl. run_M.
    pose proof (step_types o a k) as Hstep.
    destruct (step o a k) as [a1 k1]. simpl in Hstep.
    destruct (IH a1 k1) as [Hrest|[Hnone Hrest]]; rewrite Hrest.
    - done.
    - destruct Hstep as [Hstep|[_ Hstep]].
      + right. split; [|by rewrite Hstep].
        apply succeeded_None_types. rewrite <-Hstep. by apply succeeded_None_types.
      + exfalso. apply succeeded_None_types in Hnone. apply Hnone. rewrite Hstep.
        apply elem_of_app. right. apply list_elem_of_here. }
  split; [done|].
  assert (length (Conditions (Status (result (run os a) k))) =
          length (metav1.Type_ <$> Conditions (Status (result (run os a) k)))) as ->
    by (by rewrite length_fmap).
  assert (length (Conditions (Status a)) = length (metav1.Type_ <$> Conditions (Status a)))
    as -> by (by rewrite length_fmap).
  destruct Htypes as [->|[Hnone ->]].
  - split; [lia|done].
  - rewrite length_app. simpl. split; [lia|].
    intros [c Hc]. congruence.
Qed.

End conditions.

Section effects.
Import meta.
Implicit Types (a : ApplicationSnapshot) (k : Clock) (o : Op).
Implicit Types (reason : ApplicationSnapshotReason) (message : string).

Lemma HasSucceeded_succeeded a :
  HasSucceeded a = match succeeded a with
                   | Some c => negb (bool_decide (metav1.Status c = metav1.ConditionTrue))
                   | None => true
                   end.
Proof.
  rewrite HasSucceeded_find. unfold succeeded.
  by destruct (FindStatusCondition _ _) as [[??]|].
Qed.

(** X7. The two queries agree on success: whenever [HasSucceeded] answers
    false (the Succeeded condition is True) [IsDone] answers true, and
    whenever [IsDone] answers false [HasSucceeded] answers true. *)
Theorem HasSucceeded_false_implies_IsDone a :
  (HasSucceeded a = false → IsDone a = true) ∧
  (IsDone a = false → HasSucceeded a = true).
Proof.
  rewrite HasSucceeded_succeeded, IsDone_succeeded.
  destruct (succeeded a) as [c|]; [|done].
  destruct (metav1.Status c); split; done.
Qed.

(** X8. On a snapshot that has not started, [MarkRunning] stores the clock's
    reading as the start time and sets the Succeeded condition to (Unknown,
    TestsRunning, empty message), whatever the condition was before: the
    snapshot is not done afterwards.  The completion time is left alone. *)
Theorem MarkRunning_starts_the_snapshot a k :
  HasStarted a = false →
  let a1 := result (MarkRunning a) k in
  StartTime (Status a1) = Some (wall k (ticks k)) ∧
  (∃ t, succeeded a1 =
        Some (metav1.mkCondition "Succeeded" metav1.ConditionUnknown t "TestsRunning" "")) ∧
  IsDone a1 = false ∧
  CompletionTime (Status a1) = CompletionTime (Status a).
Proof.
  intros Hs. simpl. unfold result. rewrite MarkRunning_go by done. split_and!.
  - by rewrite (proj1 (setStatusConditionWithMessage_times _ _ _ _ _)).
  - apply setStatusConditionWithMessage_succeeded.
  - by rewrite setStatusConditionWithMessage_IsDone.
  - by rewrite (proj2 (setStatusConditionWithMessage_times _ _ _ _ _)).
Qed.

(** X9. After [MarkRunning] the snapshot has started, on every snapshot,
    provided the clock does not read Go's zero instant. *)
Theorem MarkRunning_then_HasStarted a k :
  wall k (ticks k) ≠ 0%Z →
  HasStarted (result (MarkRunning a) k) = true.
Proof.
  intros Hclock. unfold result. destruct (HasStarted a) eqn:Hs.
  - by rewrite MarkRunning_noop.
  - rewrite MarkRunning_go by done. unfold HasStarted.
    rewrite (proj1 (setStatusConditionWithMessage_times _ _ _ _ _)). simpl.
    unfold metav1.Time_IsZero. by rewrite bool_decide_eq_false_2.
Qed.

(** X10. Unless the snapshot is already done with its completion time set,
    [MarkSucceeded] stores the clock's reading as the completion time and sets
    the Succeeded condition to (True, Succeeded, empty message); afterwards
    [IsDone] is true and [HasSucceeded] is false.  The start time is left
    alone. *)
Theorem MarkSucceeded_completes_the_snapshot a k :
  ¬ (IsDone a = true ∧ CompletionTime (Status a) ≠ None) →
  let a1 := result (MarkSucceeded a) k in
  CompletionTime (Status a1) = Some (wall k (ticks k)) ∧
  (∃ t, succeeded a1 =
        Some (metav1.mkCondition "Succeeded" metav1.ConditionTrue t "Succeeded" "")) ∧
  IsDone a1 = true ∧
  HasSucceeded a1 = false ∧
  StartTime (Status a1) = StartTime (Status a).
Proof.
  intros Hguard. simpl. unfold result.
  rewrite MarkSucceeded_go.
  - destruct (setStatusConditionWithMessage_succeeded metav1.ConditionTrue
                ApplicationSnapshotReasonSucceeded ""
                (set_CompletionTime (Some (wall k (ticks k))) a)
                (mkClock (wall k) (S (ticks k)))) as [t Ht].
    split_and!.
    + by rewrite (proj2 (setStatusConditionWithMessage_times _ _ _ _ _)).
    + by exists t.
    + by rewrite setStatusConditionWithMessage_IsDone.
    + by rewrite HasSucceeded_succeeded, Ht.
    + by rewrite (proj1 (setStatusConditionWithMessage_times _ _ _ _ _)).
  - apply not_true_is_false. intros [Hd Hc%bool_decide_eq_true]%andb_true_iff. tauto.
Qed.

(** X11. Unless the snapshot is already done with its completion time set,
    [MarkFailed] with any reason and message stores the clock's reading as the
    completion time and sets the Succeeded condition to (False, reason,
    message); afterwards [IsDone] is true and [HasSucceeded] is true. *)
Theorem MarkFailed_fails_the_snapshot a k reason message :
  ¬ (IsDone a = true ∧ CompletionTime (Status a) ≠ None) →
  let a1 := result (MarkFailed reason message a) k in
  CompletionTime (Status a1) = Some (wall k (ticks k)) ∧
  (∃ t, succeeded a1 =
        Some (metav1.mkCondition "Succeeded" metav1.ConditionFalse t reason message)) ∧
  IsDone a1 = true ∧
  HasSucceeded a1 = true.
Proof.
  intros Hguard. simpl. unfold result.
  rewrite MarkFailed_go.
  - destruct (setStatusConditionWithMessage_succeeded metav1.ConditionFalse reason message
                (set_CompletionTime (Some (wall k (ticks k))) a)
                (mkClock (wall k) (S (ticks k)))) as [t Ht].
    split_and!.
    + by rewrite (proj2 (setStatusConditionWithMessage_times _ _ _ _ _)).
    + by exists t.
    + by rewrite setStatusConditionWithMessage_IsDone.
    + by rewrite HasSucceeded_succeeded, Ht.
  - apply not_true_is_false. intros [Hd Hc%bool_decide_eq_true]%andb_true_iff. tauto.
Qed.

(** X12. On a snapshot that is not done, [MarkInvalid] with any reason and
    message sets the Succeeded condition to (False, reason, message), so the
    snapshot is done, and writes neither time; on a snapshot that is done it
    changes nothing and does not read the clock. *)
Theorem MarkInvalid_invalidates_the_snapshot a k reason message :
  (IsDone a = false →
   let a1 := result (MarkInvalid reason message a) k in
   (∃ t, succeeded a1 =
         Some (metav1.mkCondition "Succeeded" metav1.ConditionFalse t reason message)) ∧
   IsDone a1 = true ∧
   StartTime (Status a1) = StartTime (Status a) ∧
   CompletionTime (Status a1) = CompletionTime (Status a)) ∧
  (IsDone a = true → MarkInvalid reason message a k = (a, k)).
Proof.
  split.
  - intros Hd. simpl. unfold result. rewrite MarkInvalid_go by done. split_and!.
    + apply setStatusConditionWithMessage_succeeded.
    + by rewrite setStatusConditionWithMessage_IsDone.
    + by rewrite (proj1 (setStatusConditionWithMessage_times _ _ _ _ _)).
    + by rewrite (proj2 (setStatusConditionWithMessage_times _ _ _ _ _)).
  - apply MarkInvalid_noop.
Qed.

Lemma stamped_is_terminal o a k :
  (o = OpMarkSucceeded ∨ ∃ reason message, o = OpMarkFailed reason message) →
  IsDone (step o a k).1 = true ∧ CompletionTime (Status (step o a k).1) ≠ None.
Proof.
  intros Hcase. step_cases o a.
  - destruct Hcase as [?|(?&?&?)]; congruence.
  - destruct Hcase as [?|(?&?&?)]; congruence.
  - by apply andb_true_iff in Hg as [? ?%bool_decide_eq_true].
  - by rewrite setStatusConditionWithMessage_IsDone,
         (proj2 (setStatusConditionWithMessage_times _ _ _ _ _)).
  - destruct Hcase as [?|(?&?&?)]; congruence.
  - destruct Hcase as [?|(?&?&?)]; congruence.
  - by apply andb_true_iff in Hg as [? ?%bool_decide_eq_true].
  - by rewrite setStatusConditionWithMessage_IsDone,
         (proj2 (setStatusConditionWithMessage_times _ _ _ _ _)).
Qed.

(** X13. The first terminal outcome wins.  After [MarkFailed] or after
    [MarkSucceeded], on any snapshot, a following [MarkFailed], [MarkInvalid]
    or [MarkSucceeded] changes nothing and does not read the clock: a failed
    snapshot is not turned into a succeeded one, nor the other way round. *)
Theorem terminal_outcome_is_not_replaced a k o reason message :
  o ≠ OpMarkRunning →
  (a1 ← MarkFailed reason message a; step o a1) k = MarkFailed reason message a k ∧
  (a1 ← MarkSucceeded a; step o a1) k = MarkSucceeded a k.
Proof.
  intros Ho.
  assert (∀ o1, (o1 = OpMarkSucceeded ∨ ∃ r m, o1 = OpMarkFailed r m) →
                (a1 ← step o1 a; step o a1) k = step o1 a k) as Hgen.
  { intros o1 Ho1. pose proof (stamped_is_terminal o1 a k Ho1) as [Hd Hc].
    run_M. destruct (step o1 a k) as [a1 k1]. simpl in *.
    by apply step_terminal; [| |right]. }
  split.
  - apply (Hgen (OpMarkFailed reason message)). right. eauto.
  - apply (Hgen OpMarkSucceeded). by left.
Qed.

End effects.

Section lifecycle.
Import meta.
Implicit Types (a : ApplicationSnapshot) (k : Clock) (o : Op).
Implicit Types (reason : ApplicationSnapshotReason) (message : string).

Lemma FindStatusCondition_singleton (c : metav1.Condition) ty :
  metav1.Type_ c = ty → FindStatusCondition [c] ty = Some (0%nat, c).
Proof.
  intros Hty. apply FindStatusCondition_Some. split_and!; [done|done|].
  intros j y _ Hlt. lia.
Qed.

(** What an upsert makes of no condition, and of the one Succeeded
    condition. *)
Lemma SetStatusCondition_nil ty s r m k :
  (SetStatusCondition [] (metav1.mkCondition ty s 0 r m) k).1 =
  [metav1.mkCondition ty s (wall k (ticks k)) r m].
Proof. by rewrite SetStatusCondition_absent. Qed.

Lemma SetStatusCondition_singleton (c : metav1.Condition) ty s r m k :
  metav1.Type_ c = ty →
  ∃ t, (SetStatusCondition [c] (metav1.mkCondition ty s 0 r m) k).1 =
       [metav1.mkCondition ty s t r m].
Proof.
  intros Hty. pose proof (FindStatusCondition_singleton c ty Hty) as Hf.
  destruct (decide (metav1.Status c = s)) as [Hs|Hs].
  - rewrite (SetStatusCondition_same _ _ _ _ _ _ _ _ Hf Hs). simpl. rewrite Hty. eauto.
  - rewrite (SetStatusCondition_changed _ _ _ _ _ _ _ _ Hf Hs). simpl. rewrite Hty. eauto.
Qed.

Lemma lifecycle_invariant_upsert s r m a0 a k :
  lifecycle_invariant a0 →
  Conditions (Status a) = Conditions (Status a0) →
  match s with
  | metav1.ConditionTrue =>
      CompletionTime (Status a) ≠ None ∧ r = ApplicationSnapshotReasonSucceeded ∧ m = ""
  | metav1.ConditionUnknown =>
      StartTime (Status a) ≠ None ∧ r = ApplicationSnapshotReasonTestsRunning ∧ m = ""
  | metav1.ConditionFalse => True
  end →
  lifecycle_invariant (setStatusConditionWithMessage s r m a k).1.
Proof.
  intros Hinv Hcs Hnew. rewrite setStatusConditionWithMessage_eq.
  unfold lifecycle_invariant in *. simpl. rewrite Hcs.
  destruct (Conditions (Status a0)) as [|c [|c' cs]]; [| |done].
  - rewrite SetStatusCondition_nil. done.
  - destruct Hinv as [Hty _].
    destruct (SetStatusCondition_singleton c applicationSnapshotConditionType s r m k Hty)
      as [t ->].
    done.
Qed.

Lemma step_lifecycle_invariant o a k :
  lifecycle_invariant a → lifecycle_invariant (step o a k).1.
Proof.
  intros Hinv. step_cases o a; try done; by apply (lifecycle_invariant_upsert _ _ _ a).
Qed.

(** X14. Every snapshot the four operations produce from a fresh one, in any
    order and number, satisfies [lifecycle_invariant]: it has no condition or
    exactly one, of type Succeeded; a True status comes with reason Succeeded,
    an empty message and a completion time, an Unknown status with reason
    TestsRunning, an empty message and a start time.  So when [HasSucceeded]
    answers false on such a snapshot its completion time is set. *)
Theorem reachable_snapshots_keep_lifecycle_invariant os a k :
  fresh a →
  let a' := result (run os a) k in
  lifecycle_invariant a' ∧
  (length (Conditions (Status a')) ≤ 1)%nat ∧
  (HasSucceeded a' = false → is_Some (CompletionTime (Status a'))).
Proof.
  intros (Hcs & _ & _). simpl.
  assert (lifecycle_invariant (result (run os a) k)) as Hinv.
  { apply (run_preserves lifecycle_invariant).
    - intros o b k'. apply step_lifecycle_invariant.
    - unfold lifecycle_invariant. by rewrite Hcs. }
  split; [done|].
  rewrite HasSucceeded_succeeded. unfold succeeded, lifecycle_invariant in *.
  destruct (Conditions (Status (result (run os a) k))) as [|c [|c' cs]]; [| |done].
  - split; [simpl; lia|done].
  - destruct Hinv as [Hty Hstatus]. rewrite (FindStatusCondition_singleton c _ Hty). simpl.
    split; [lia|]. intros Htrue%negb_false_iff%bool_decide_eq_true.
    rewrite Htrue in Hstatus. destruct Hstatus as [Hc _].
    by destruct (CompletionTime _).
Qed.

(** X15. The whole run from a fresh snapshot.  [MarkRunning] then
    [MarkSucceeded] takes four readings of the clock: the first is the start
    time, the third the completion time, the fourth the transition time of the
    one condition (True, Succeeded, empty message).  With [MarkFailed] in
    place of [MarkSucceeded] the condition is (False, reason, message). *)
Theorem fresh_run_to_terminal a k reason message :
  fresh a →
  let t n := wall k (n + ticks k) in
  let ok := result (a1 ← MarkRunning a; MarkSucceeded a1) k in
  let ko := result (a1 ← MarkRunning a; MarkFailed reason message a1) k in
  (StartTime (Status ok) = Some (t 0%nat) ∧
   CompletionTime (Status ok) = Some (t 2%nat) ∧
   Conditions (Status ok) =
     [metav1.mkCondition "Succeeded" metav1.ConditionTrue (t 3%nat) "Succeeded" ""]) ∧
  (StartTime (Status ko) = Some (t 0%nat) ∧
   CompletionTime (Status ko) = Some (t 2%nat) ∧
   Conditions (Status ko) =
     [metav1.mkCondition "Succeeded" metav1.ConditionFalse (t 3%nat) reason message]).
Proof.
  destruct a as [tm om sp [st ct cs rp]]. intros (Hcs & Hst & Hct).
  simpl in Hcs, Hst, Hct. subst cs st ct. by split_and!.
Qed.

End lifecycle.

Section composition.
Import meta.
Implicit Types (a : ApplicationSnapshot) (k : Clock) (o : Op).
Implicit Types (reason : ApplicationSnapshotReason) (message : string).

(** X16. A snapshot that has not started is reopened by [MarkRunning], whatever
    its state: a following [MarkSucceeded] or [MarkFailed] is not guarded,
    takes the clock's reading as the completion time in place of any earlier
    one, and sets the status to True, respectively False. *)
Theorem not_started_snapshot_can_be_rerun a k reason message :
  HasStarted a = false →
  let k1 := (MarkRunning a k).2 in
  let ok := result (a1 ← MarkRunning a; MarkSucceeded a1) k in
  let ko := result (a1 ← MarkRunning a; MarkFailed reason message a1) k in
  (CompletionTime (Status ok) = Some (wall k1 (ticks k1)) ∧
   succeeded_status ok = Some metav1.ConditionTrue) ∧
  (CompletionTime (Status ko) = Some (wall k1 (ticks k1)) ∧
   succeeded_status ko = Some metav1.ConditionFalse).
Proof.
  intros Hs. simpl.
  assert (IsDone (MarkRunning a k).1 = false) as Hnot.
  { rewrite MarkRunning_go by done. by rewrite setStatusConditionWithMessage_IsDone. }
  run_M. destruct (MarkRunning a k) as [a1 k1]. simpl in *. split.
  - rewrite MarkSucceeded_go by (by rewrite Hnot).
    rewrite (proj2 (setStatusConditionWithMessage_times _ _ _ _ _)).
    split; [done|]. unfold succeeded_status.
    by destruct (setStatusConditionWithMessage_succeeded metav1.ConditionTrue
                   ApplicationSnapshotReasonSucceeded ""
                   (set_CompletionTime (Some (wall k1 (ticks k1))) a1)
                   (mkClock (wall k1) (S (ticks k1)))) as [t ->].
  - rewrite MarkFailed_go by (by rewrite Hnot).
    rewrite (proj2 (setStatusConditionWithMessage_times _ _ _ _ _)).
    split; [done|]. unfold succeeded_status.
    by destruct (setStatusConditionWithMessage_succeeded metav1.ConditionFalse
                   reason message
                   (set_CompletionTime (Some (wall k1 (ticks k1))) a1)
                   (mkClock (wall k1) (S (ticks k1)))) as [t ->].
Qed.

Lemma step_keeps_IsDone o a k :
  HasStarted a = true ∨ o ≠ OpMarkRunning →
  IsDone a = true → IsDone (step o a k).1 = true.
Proof.
  intros Hcase Hd. step_cases o a; try done.
  - destruct Hcase; congruence.
  - by rewrite setStatusConditionWithMessage_IsDone.
  - by rewrite setStatusConditionWithMessage_IsDone.
Qed.

(** X17. Only [MarkRunning] on a snapshot that has not started can undo
    "done": if [IsDone] is true it stays true over every sequence of the
    operations that has no [MarkRunning], and over every sequence at all once
    the snapshot has started, whether or not the completion time is set. *)
Theorem run_keeps_IsDone os a k :
  HasStarted a = true ∨ OpMarkRunning ∉ os →
  IsDone a = true →
  IsDone (result (run os a) k) = true.
Proof.
  revert a k. induction os as [|o os IH]; intros a k Hcase Hd; [done|].
  assert (HasStarted a = true ∨ o ≠ OpMarkRunning) as Ho.
  { destruct Hcase as [?|Hnotin]; [by left|right].
    by apply not_elem_of_cons in Hnotin as [? _]. }
  pose proof (step_keeps_IsDone o a k Ho Hd) as Hd1.
  assert (HasStarted (step o a k).1 = true ∨ OpMarkRunning ∉ os) as Hcase1.
  { destruct Hcase as [Hs|Hnotin].
    - left. unfold HasStarted in *. rewrite step_StartTime; [done|]. by right.
    - right. by apply not_elem_of_cons in Hnotin as [_ ?]. }
  unfold result in *. simpl. run_M.
  destruct (step o a k) as [a1 k1]. by apply IH.
Qed.

(** X18. The upsert is idempotent: setting the Succeeded condition to the same
    status, reason and message a second time changes nothing, the transition
    time included, and does not read the clock. *)
Theorem setStatusConditionWithMessage_idempotent s reason message a k :
  (a1 ← setStatusConditionWithMessage s reason message a;
   setStatusConditionWithMessage s reason message a1) k =
  setStatusConditionWithMessage s reason message a k.
Proof.
  run_M. rewrite (setStatusConditionWithMessage_eq s reason message a k).
  destruct (SetStatusCondition_find (Conditions (Status a))
              applicationSnapshotConditionType s reason message k) as (i & t & Hf).
  destruct (SetStatusCondition (Conditions (Status a)) _ k) as [cs1 k1]. simpl in *.
  rewrite setStatusConditionWithMessage_eq. simpl.
  rewrite (SetStatusCondition_same _ _ _ _ _ _ _ _ Hf eq_refl). simpl.
  apply FindStatusCondition_Some in Hf as (Hi & _ & _).
  rewrite list_insert_id by done. done.
Qed.

End composition.

(** * The further properties at concrete snapshots *)

(** X2 at the snapshot that ran and succeeded. *)
Lemma run_keeps_startTime_once_started_witness :
  HasStarted snapshot_succeeded = true ∧
  StartTime (Status (result (run [OpMarkRunning; OpMarkFailed "Error" "x"]
                               snapshot_succeeded) clock0)) = Some 100%Z.
Proof.
  split; [reflexivity|].
  exact (proj1 (run_keeps_startTime_once_started
                  [OpMarkRunning; OpMarkFailed "Error" "x"] snapshot_succeeded clock0 eq_refl)).
Defined.

(** X5 at a snapshot with a Ready condition, which a whole run leaves in
    place. *)
Lemma run_keeps_conditions_of_other_types_witness :
  Conditions (Status snapshot_with_ready) !! 0%nat =
    Some (metav1.mkCondition "Ready" metav1.ConditionTrue 7 "Deployed" "ok") ∧
  Conditions (Status (result (run [OpMarkRunning; OpMarkSucceeded] snapshot_with_ready) clock0))
    !! 0%nat = Some (metav1.mkCondition "Ready" metav1.ConditionTrue 7 "Deployed" "ok").
Proof.
  assert ("Ready" ≠ "Succeeded") as Hne by discriminate.
  split; [reflexivity|].
  exact (run_keeps_conditions_of_other_types [OpMarkRunning; OpMarkSucceeded]
           snapshot_with_ready clock0 0
           (metav1.mkCondition "Ready" metav1.ConditionTrue 7 "Deployed" "ok") eq_refl Hne).
Defined.

(** X8 at the snapshot that failed before it ran. *)
Lemma MarkRunning_starts_the_snapshot_witness :
  HasStarted snapshot_failed = false ∧
  IsDone (result (MarkRunning snapshot_failed) clock2) = false.
Proof.
  split; [reflexivity|].
  exact (proj1 (proj2 (proj2 (MarkRunning_starts_the_snapshot snapshot_failed clock2 eq_refl)))).
Defined.

(** X9 at the fresh snapshot. *)
Lemma MarkRunning_then_HasStarted_witness :
  wall clock0 (ticks clock0) ≠ 0%Z ∧
  HasStarted (result (MarkRunning snapshot0) clock0) = true.
Proof.
  assert (wall clock0 (ticks clock0) ≠ 0%Z) as Hclock by discriminate.
  split; [exact Hclock|].
  exact (MarkRunning_then_HasStarted snapshot0 clock0 Hclock).
Defined.

(** X10 at the fresh snapshot. *)
Lemma MarkSucceeded_completes_the_snapshot_witness :
  ¬ (IsDone snapshot0 = true ∧ CompletionTime (Status snapshot0) ≠ None) ∧
  HasSucceeded (result (MarkSucceeded snapshot0) clock0) = false.
Proof.
  assert (¬ (IsDone snapshot0 = true ∧ CompletionTime (Status snapshot0) ≠ None)) as Hguard.
  { intros [Hd _]. discriminate Hd. }
  split; [exact Hguard|].
  exact (proj1 (proj2 (proj2 (proj2
    (MarkSucceeded_completes_the_snapshot snapshot0 clock0 Hguard))))).
Defined.

(** X11 at the fresh snapshot. *)
Lemma MarkFailed_fails_the_snapshot_witness :
  ¬ (IsDone snapshot0 = true ∧ CompletionTime (Status snapshot0) ≠ None) ∧
  IsDone (result (MarkFailed "TestsFailed" "2 of 7" snapshot0) clock0) = true.
Proof.
  assert (¬ (IsDone snapshot0 = true ∧ CompletionTime (Status snapshot0) ≠ None)) as Hguard.
  { intros [Hd _]. discriminate Hd. }
  split; [exact Hguard|].
  exact (proj1 (proj2 (proj2
    (MarkFailed_fails_the_snapshot snapshot0 clock0 "TestsFailed" "2 of 7" Hguard)))).
Defined.

(** X13 at the fresh snapshot: failed, then marked succeeded. *)
Lemma terminal_outcome_is_not_replaced_witness :
  OpMarkSucceeded ≠ OpMarkRunning ∧
  (a1 ← MarkFailed "Error" "x" snapshot0; step OpMarkSucceeded a1) clock0 =
    MarkFailed "Error" "x" snapshot0 clock0.
Proof.
  assert (OpMarkSucceeded ≠ OpMarkRunning) as Hne by discriminate.
  split; [exact Hne|].
  exact (proj1 (terminal_outcome_is_not_replaced snapshot0 clock0 OpMarkSucceeded
                  "Error" "x" Hne)).
Defined.

(** X14 at the fresh snapshot, after a run that fails, restarts and
    succeeds. *)
Lemma reachable_snapshots_keep_lifecycle_invariant_witness :
  fresh snapshot0 ∧
  lifecycle_invariant
    (result (run [OpMarkInvalid "Error" "x"; OpMarkRunning; OpMarkSucceeded] snapshot0) clock0).
Proof.
  assert (fresh snapshot0) as Hfresh by (by split_and!).
  split; [exact Hfresh|].
  exact (proj1 (reachable_snapshots_keep_lifecycle_invariant
                  [OpMarkInvalid "Error" "x"; OpMarkRunning; OpMarkSucceeded]
                  snapshot0 clock0 Hfresh)).
Defined.

(** X15 at the fresh snapshot. *)
Lemma fresh_run_to_terminal_witness :
  fresh snapshot0 ∧
  CompletionTime (Status (result (a1 ← MarkRunning snapshot0; MarkSucceeded a1) clock0))
    = Some 102%Z.
Proof.
  assert (fresh snapshot0) as Hfresh by (by split_and!).
  split; [exact Hfresh|].
  exact (proj1 (proj2 (proj1 (fresh_run_to_terminal snapshot0 clock0 "Error" "x" Hfresh)))).
Defined.

(** X16 at the snapshot that failed before it ran: it is run again and
    succeeds, with a new completion time. *)
Lemma not_started_snapshot_can_be_rerun_witness :
  HasStarted snapshot_failed = false ∧
  CompletionTime (Status (result (a1 ← MarkRunning snapshot_failed; MarkSucceeded a1) clock2))
    = Some 104%Z.
Proof.
  split; [reflexivity|].
  exact (proj1 (proj1 (not_started_snapshot_can_be_rerun snapshot_failed clock2 "Error" "x"
                         eq_refl))).
Defined.

(** X17 at the snapshot that failed before it ran. *)
Lemma run_keeps_IsDone_witness :
  (OpMarkRunning ∉ [OpMarkInvalid "Error" "x"; OpMarkSucceeded]) ∧
  IsDone snapshot_failed = true ∧
  IsDone (result (run [OpMarkInvalid "Error" "x"; OpMarkSucceeded] snapshot_failed) clock2)
    = true.
Proof.
  assert (OpMarkRunning ∉ [OpMarkInvalid "Error" "x"; OpMarkSucceeded]) as Hnotin.
  { intros Hin. apply elem_of_cons in Hin as [Hin|Hin]; [discriminate Hin|].
    apply elem_of_cons in Hin as [Hin|Hin]; [discriminate Hin|].
    by apply elem_of_nil in Hin. }
  split_and!; [exact Hnotin|reflexivity|].
  exact (run_keeps_IsDone _ snapshot_failed clock2 (or_intror Hnotin) eq_refl).
Defined.
